(** * Adafruit_AW9523: register/bit layer of the AW9523 GPIO expander driver

    A shallow embedding of [Adafruit_AW9523.cpp].  The driver talks to
    the chip through I2C register transactions; every method becomes a
    computation in a small state monad over a simulated bus: the
    chip's byte-wide register file, a script of acknowledge outcomes
    for the transactions to come, and the trace of transactions done
    so far. *)

From Stdlib Require Import ZArith List Bool Lia.
Import ListNotations.
Local Open Scope Z_scope.

(** ** Fixed-width integers

    C++ unsigned types are modelled as [Z] with the wrap-around written
    as a mask. *)

Definition u8 (x : Z) : Z := Z.land x 0xFF.
Definition u16 (x : Z) : Z := Z.land x 0xFFFF.
Definition u32 (x : Z) : Z := Z.land x 0xFFFFFFFF.

(** Conversion of a C++ [bool] to an integer argument. *)
Definition b2u (b : bool) : Z := if b then 1 else 0.

(** ** Constants of the missing headers *)

(** Modelled from the spec: the header [Adafruit_AW9523.h] with the
    register-address macros is not part of the sources.  The spec fixes
    the layout as pairs of 8-bit registers (port 0 = pins 0-7, port 1 =
    pins 8-15) per function; the numeric addresses below are those of
    the AW9523 register map, where the port-1 register of each pair
    follows the port-0 register. *)
Definition AW9523_REG_INPUT0 : Z := 0x00.
Definition AW9523_REG_INPUT1 : Z := 0x01.
Definition AW9523_REG_OUTPUT0 : Z := 0x02.
Definition AW9523_REG_OUTPUT1 : Z := 0x03.
Definition AW9523_REG_CONFIG0 : Z := 0x04.
Definition AW9523_REG_CONFIG1 : Z := 0x05.
Definition AW9523_REG_INTENABLE0 : Z := 0x06.
Definition AW9523_REG_INTENABLE1 : Z := 0x07.
Definition AW9523_REG_CHIPID : Z := 0x10.
Definition AW9523_REG_GCR : Z := 0x11.
Definition AW9523_REG_LEDMODE0 : Z := 0x12.
Definition AW9523_REG_LEDMODE1 : Z := 0x13.
Definition AW9523_REG_SOFTRESET : Z := 0x7F.

(** Modelled from the spec: the mode constants passed to [pinMode];
    [INPUT] and [OUTPUT] come from [Arduino.h], [AW9523_LED_MODE] from
    the driver's header. *)
Definition INPUT : Z := 0x0.
Definition OUTPUT : Z := 0x1.
Definition AW9523_LED_MODE : Z := 0x99.

(** ** The simulated bus and chip *)

(** One bus transaction, with whether it was acknowledged. *)
Inductive event : Type :=
| EvProbe (ok : bool)
| EvWrite (addr : Z) (data : list Z) (ok : bool)
| EvRead (addr : Z) (len : nat) (ok : bool).

(** Modelled from the spec: the chip behind the transport is a file of
    8-bit registers.  [regs] is that register file, one byte per
    address.  With [loopback] set, the two input registers read back
    the output registers.  [acks] scripts the outcome of the coming
    transactions (an exhausted script acknowledges everything), and
    [trace] records the transactions done. *)
Record bus : Type := mkBus {
  regs : Z -> Z;
  loopback : bool;
  acks : list bool;
  trace : list event
}.

(** The byte content of a register. *)
Definition reg (s : bus) (a : Z) : Z := u8 (regs s a).

(** A bus on which every coming transaction is acknowledged. *)
Definition reliable (s : bus) : bool := forallb (fun b => b) (acks s).

Definition dev_store (f : Z -> Z) (a v : Z) : Z -> Z :=
  fun x => if x =? a then v else f x.

(** A transaction of several bytes walks through consecutive
    registers: the chip increments the register address after each
    byte.  This is what lets a width-2 register placed on a port-0
    address reach the port-1 register behind it. *)
Fixpoint store_bytes (f : Z -> Z) (a : Z) (data : list Z) : Z -> Z :=
  match data with
  | [] => f
  | b :: rest => store_bytes (dev_store f a b) (a + 1) rest
  end.

(** The byte the chip returns for register [a]. *)
Definition dev_load (s : bus) (a : Z) : Z :=
  if loopback s then
    if a =? AW9523_REG_INPUT0 then u8 (regs s AW9523_REG_OUTPUT0)
    else if a =? AW9523_REG_INPUT1 then u8 (regs s AW9523_REG_OUTPUT1)
    else u8 (regs s a)
  else u8 (regs s a).

Fixpoint load_bytes (s : bus) (a : Z) (n : nat) : list Z :=
  match n with
  | O => []
  | S k => dev_load s a :: load_bytes s (a + 1) k
  end.

(** ** The state monad of bus computations *)

Definition M (A : Type) : Type := bus -> A * bus.

Definition ret {A : Type} (x : A) : M A := fun s => (x, s).

Definition bind {A B : Type} (m : M A) (k : A -> M B) : M B :=
  fun s => let (x, s') := m s in k x s'.

Declare Scope bus_scope.
Delimit Scope bus_scope with bus.
Notation "x <- m ;; k" := (bind m (fun x => k))
  (at level 61, m at next level, right associativity) : bus_scope.
Notation "m ;;; k" := (bind m (fun _ => k))
  (at level 61, right associativity) : bus_scope.
Local Open Scope bus_scope.

(** The outcome of the next transaction, and the bus once it is over. *)
Definition next_ack (s : bus) : bool := hd true (acks s).

Definition advance (s : bus) (f : Z -> Z) (e : event) : bus :=
  mkBus f (loopback s) (tl (acks s)) (trace s ++ [e]).

(** Modelled from the spec: the transport collaborator (open, write
    bytes, read bytes) is [Adafruit_I2CDevice] of the BusIO library,
    which is not part of the sources.  [begin] probes the address. *)
Definition i2c_begin : M bool := fun s =>
  let ok := next_ack s in
  (ok, advance s (regs s) (EvProbe ok)).

(** Modelled from the spec: [Adafruit_I2CDevice::write] of a register
    address followed by the data bytes.  A transaction that is not
    acknowledged changes nothing on the chip. *)
Definition i2c_write (addr : Z) (data : list Z) : M bool := fun s =>
  let ok := next_ack s in
  (ok, advance s (if ok then store_bytes (regs s) addr data else regs s)
               (EvWrite addr data ok)).

(** Modelled from the spec: [Adafruit_I2CDevice::write_then_read];
    [None] when the transaction failed. *)
Definition i2c_read (addr : Z) (len : nat) : M (option (list Z)) := fun s =>
  let ok := next_ack s in
  (if ok then Some (load_bytes s addr len) else None,
   advance s (regs s) (EvRead addr len ok)).

(** ** Adafruit_I2CRegister and Adafruit_I2CRegisterBits *)

Inductive byteorder : Type := LSBFIRST | MSBFIRST.

Record Adafruit_I2CRegister : Type := mkReg {
  r_address : Z;
  r_width : nat;
  r_byteorder : byteorder
}.

(** The constructor's defaults: width 1, least significant byte
    first. *)
Definition reg1 (addr : Z) : Adafruit_I2CRegister := mkReg addr 1 LSBFIRST.

(** The loop of [write(uint32_t value, uint8_t numbytes)] filling the
    buffer: byte [i] is [value & 0xFF], then [value >>= 8]. *)
Fixpoint split_bytes (n : nat) (value : Z) : list Z :=
  match n with
  | O => []
  | S k => Z.land value 0xFF :: split_bytes k (Z.shiftr value 8)
  end.

Definition fill_buffer (bo : byteorder) (n : nat) (value : Z) : list Z :=
  match bo with
  | LSBFIRST => split_bytes n value
  | MSBFIRST => rev (split_bytes n value)
  end.

(** Modelled from the spec: [Adafruit_I2CRegister] (the spec's
    RegisterView) belongs to the BusIO library, which is not part of
    the sources.  [write] splits the value into [width] bytes in the
    declared byte order and sends them in one transaction. *)
Definition reg_write (r : Adafruit_I2CRegister) (value : Z) : M bool :=
  if (4 <? r_width r)%nat then ret false
  else i2c_write (r_address r) (fill_buffer (r_byteorder r) (r_width r) (u32 value)).

(** The loop of [read(void)]: [value <<= 8; value |= byte]. *)
Definition join_bytes (bo : byteorder) (buffer : list Z) : Z :=
  fold_left (fun value b => Z.lor (u32 (Z.shiftl value 8)) b)
            (match bo with LSBFIRST => rev buffer | MSBFIRST => buffer end) 0.

(** Modelled from the spec: [read] of the BusIO register fetches
    [width] bytes in one transaction and assembles them in the declared
    byte order; a failed transaction yields [(uint32_t)-1]. *)
Definition reg_read (r : Adafruit_I2CRegister) : M Z :=
  res <- i2c_read (r_address r) (r_width r) ;;
  ret (match res with
       | Some buffer => join_bytes (r_byteorder r) buffer
       | None => 0xFFFFFFFF
       end).

Record Adafruit_I2CRegisterBits : Type := mkBits {
  b_register : Adafruit_I2CRegister;
  b_bits : Z;
  b_shift : Z
}.

(** Modelled from the spec: [Adafruit_I2CRegisterBits] (the spec's
    BitField) belongs to the BusIO library.  [read] reads the whole
    register, shifts and masks. *)
Definition bits_read (f : Adafruit_I2CRegisterBits) : M Z :=
  val <- reg_read (b_register f) ;;
  ret (Z.land (Z.shiftr val (b_shift f)) (Z.shiftl 1 (b_bits f) - 1)).

(** Modelled from the spec: [write] is a read-modify-write of the whole
    register: clear the field with the shifted mask, or in the new
    value, write the register back. *)
Definition bits_write (f : Adafruit_I2CRegisterBits) (data : Z) : M bool :=
  val <- reg_read (b_register f) ;;
  let mask := Z.shiftl 1 (b_bits f) - 1 in
  let data := Z.land data mask in
  let mask := u32 (Z.shiftl mask (b_shift f)) in
  let val := Z.land val (u32 (Z.lnot mask)) in
  let val := Z.lor val (u32 (Z.shiftl data (b_shift f))) in
  reg_write (b_register f) val.

(** ** The driver: Adafruit_AW9523 *)

Module Adafruit_AW9523.

(** All the port registers are declared with width 2, least significant
    byte first. *)
Definition reg2 (addr : Z) : Adafruit_I2CRegister := mkReg addr 2 LSBFIRST.

(** [reset]: write 0 to the soft-reset register. *)
Definition reset : M bool :=
  reg_write (reg1 AW9523_REG_SOFTRESET) 0.

(** [outputGPIO(pins)]; [||] does not evaluate its right operand when
    the left one is true. *)
Definition outputGPIO (pins : Z) : M bool :=
  let output0reg := reg2 AW9523_REG_OUTPUT0 in
  let output1reg := reg2 AW9523_REG_OUTPUT1 in
  ok0 <- reg_write output0reg pins ;;
  if negb ok0 then ret false
  else
    ok1 <- reg_write output1reg pins ;;
    if negb ok1 then ret false else ret true.

(** [inputGPIO()]: the operands of [|] are read left to right; the
    result is cut to [uint16_t]. *)
Definition inputGPIO : M Z :=
  let input0reg := reg2 AW9523_REG_INPUT0 in
  let input1reg := reg2 AW9523_REG_INPUT1 in
  hi <- reg_read input1reg ;;
  lo <- reg_read input0reg ;;
  ret (u16 (Z.lor (u32 (Z.shiftl hi 8)) lo)).

(** [interruptEnableGPIO(pins)]; [~] acts on the promoted integer. *)
Definition interruptEnableGPIO (pins : Z) : M bool :=
  let int0reg := reg2 AW9523_REG_INTENABLE0 in
  let int1reg := reg2 AW9523_REG_INTENABLE1 in
  ok0 <- reg_write int0reg (Z.lnot pins) ;;
  if negb ok0 then ret false
  else
    ok1 <- reg_write int1reg (Z.lnot (Z.shiftr pins 8)) ;;
    if negb ok1 then ret false else ret true.

(** [configureDirection(pins)]. *)
Definition configureDirection (pins : Z) : M bool :=
  let conf0reg := reg2 AW9523_REG_CONFIG0 in
  let conf1reg := reg2 AW9523_REG_CONFIG1 in
  ok0 <- reg_write conf0reg (Z.lnot pins) ;;
  if negb ok0 then ret false
  else
    ok1 <- reg_write conf1reg (Z.lnot (Z.shiftr pins 8)) ;;
    if negb ok1 then ret false else ret true.

(** [configureLEDMode(pins)]. *)
Definition configureLEDMode (pins : Z) : M bool :=
  let ledmode0reg := reg2 AW9523_REG_LEDMODE0 in
  let ledmode1reg := reg2 AW9523_REG_LEDMODE1 in
  ok0 <- reg_write ledmode0reg (Z.lnot pins) ;;
  if negb ok0 then ret false
  else
    ok1 <- reg_write ledmode1reg (Z.lnot (Z.shiftr pins 8)) ;;
    if negb ok1 then ret false else ret true.

(** The register selection of [analogWrite]: [reg] is declared without
    a value ([None]) and assigned by three independent [if]s. *)
Definition analogWrite_reg (pin : Z) : option Z :=
  let reg : option Z := None in
  let reg := if (0 <=? pin) && (pin <=? 7) then Some (u8 (0x24 + pin)) else reg in
  let reg := if (8 <=? pin) && (pin <=? 11) then Some (u8 (0x20 + pin - 8)) else reg in
  let reg := if (12 <=? pin) && (pin <=? 15) then Some (u8 (0x2C + pin - 12)) else reg in
  reg.

(** [analogWrite(pin, val)]: undefined ([None]) when [reg] was never
    assigned. *)
Definition analogWrite (pin val : Z) (s : bus) : option (unit * bus) :=
  match analogWrite_reg pin with
  | Some reg => Some ((reg_write (reg1 reg) val ;;; ret tt) s)
  | None => None
  end.

(** [digitalWrite(pin, val)]. *)
Definition digitalWrite (pin : Z) (val : bool) : M unit :=
  let output0reg := reg2 AW9523_REG_OUTPUT0 in
  let outbit := mkBits output0reg 1 pin in
  bits_write outbit (b2u val) ;;;
  ret tt.

(** [digitalRead(pin)]. *)
Definition digitalRead (pin : Z) : M bool :=
  let inputreg := reg2 AW9523_REG_INPUT0 in
  let outPin := pin in
  let inputreg := if 8 <=? pin then reg2 AW9523_REG_INPUT1 else inputreg in
  let outPin := if 8 <=? pin then u8 (pin - 8) else outPin in
  let inbit := mkBits inputreg 1 outPin in
  v <- bits_read inbit ;;
  ret (negb (v =? 0)).

(** [enableInterrupt(pin, en)]: the bit field is built with [pin]
    itself as the shift. *)
Definition enableInterrupt (pin : Z) (en : bool) : M unit :=
  let intenablereg := reg2 AW9523_REG_INTENABLE0 in
  let intenablereg :=
    if 8 <=? pin then reg2 AW9523_REG_INTENABLE1 else intenablereg in
  let irqbit := mkBits intenablereg 1 pin in
  bits_write irqbit (b2u (negb en)) ;;;
  ret tt.

Definition when (c : bool) (m : M unit) : M unit :=
  if c then m else ret tt.

(** [pinMode(pin, mode)]: three independent [if]s on [mode]. *)
Definition pinMode (pin mode : Z) : M unit :=
  let confreg := reg2 AW9523_REG_CONFIG0 in
  let ledmodereg := reg2 AW9523_REG_LEDMODE0 in
  let outPin := pin in
  let confreg := if 8 <=? pin then reg2 AW9523_REG_CONFIG1 else confreg in
  let ledmodereg := if 8 <=? pin then reg2 AW9523_REG_LEDMODE1 else ledmodereg in
  let outPin := if 8 <=? pin then u8 (pin - 8) else outPin in
  let confbit := mkBits confreg 1 outPin in
  let modebit := mkBits ledmodereg 1 outPin in
  when (mode =? OUTPUT)
       (bits_write confbit 0 ;;; bits_write modebit 1 ;;; ret tt) ;;;
  when (mode =? INPUT)
       (bits_write confbit 1 ;;; bits_write modebit 1 ;;; ret tt) ;;;
  when (mode =? AW9523_LED_MODE)
       (bits_write confbit 0 ;;; bits_write modebit 0 ;;; ret tt).

(** [openDrainPort0(od)]. *)
Definition openDrainPort0 (od : bool) : M bool :=
  let gcrreg := reg1 AW9523_REG_GCR in
  let opendrain := mkBits gcrreg 1 4 in
  bits_write opendrain (b2u (negb od)).

(** [begin(addr, wire)]: the simulated bus is the device at [addr].
    The results of the three configuration calls are dropped. *)
Definition begin : M bool :=
  ok <- i2c_begin ;;
  if negb ok then ret false
  else
    ok <- reset ;;
    if negb ok then ret false
    else
      id <- reg_read (reg1 AW9523_REG_CHIPID) ;;
      if negb (id =? 0x23) then ret false
      else
        configureDirection 0x0 ;;;
        openDrainPort0 false ;;;
        interruptEnableGPIO 0 ;;;
        ret true.

End Adafruit_AW9523.

Import Adafruit_AW9523.

(** ** Reference tables, observations and sample buses *)

(** The dimming register of a pin as the spec's table gives it. *)
Definition dimming_register (pin : Z) : Z :=
  if pin <=? 7 then 0x24 + pin
  else if pin <=? 11 then 0x20 + (pin - 8)
  else 0x2C + (pin - 12).

(** The recorded output bit of a pin: bit [q mod 8] of the output
    register of the pin's port. *)
Definition output_bit (s : bus) (q : Z) : bool :=
  Z.testbit
    (regs s (if q <? 8 then AW9523_REG_OUTPUT0 else AW9523_REG_OUTPUT1))
    (q mod 8).

(** The 16-bit word digitalWrite writes back: the two output registers
    joined, with bit [p] replaced. *)
Definition output_word (f : Z -> Z) (p : Z) (v : bool) : Z :=
  Z.lor
    (Z.land (join_bytes LSBFIRST [u8 (f AW9523_REG_OUTPUT0);
                                  u8 (f (AW9523_REG_OUTPUT0 + 1))])
            (u32 (Z.lnot (u32 (Z.shiftl 1 p)))))
    (u32 (Z.shiftl (Z.land (b2u v) 1) p)).

(** The loopback bus with cleared registers. *)
Definition bus_loopback0 : bus := mkBus (fun _ => 0) true [] [].

(** A loopback bus with output0 = 0x3C and output1 = 0xA5. *)
Definition bus_loopback_pattern : bus :=
  mkBus (fun a => if a =? AW9523_REG_OUTPUT1 then 0xA5 else 0x3C) true [true] [].

(** A bus with cleared registers and no loopback. *)
Definition bus_zero : bus := mkBus (fun _ => 0) false [] [].

(** A bus whose registers all hold 0xFF. *)
Definition bus_ones : bus := mkBus (fun _ => 0xFF) false [] [].

(** A bus whose chip reports the identity 0x24. *)
Definition bus_wrong_chip : bus :=
  mkBus (fun a => if a =? AW9523_REG_CHIPID then 0x24 else 0) false [] [].

(** A bus on which the chip answers with the right identity but the
    first configuration write is not acknowledged. *)
Definition bus_config_nack : bus :=
  mkBus (fun a => if a =? AW9523_REG_CHIPID then 0x23 else 0) false
        [true; true; true; false] [].

(** The bit of pin [q] in a pair of port registers [r0] (pins 0-7) and
    [r1] (pins 8-15). *)
Definition pin_bit (r0 r1 : Z) (s : bus) (q : Z) : bool :=
  Z.testbit (regs s (if q <? 8 then r0 else r1)) (q mod 8).

(** The sixteen pins as the chip presents them in its two input
    registers. *)
Definition input_word (s : bus) : Z :=
  Z.lor (dev_load s AW9523_REG_INPUT0)
        (Z.shiftl (dev_load s AW9523_REG_INPUT1) 8).

(** A bus with the right chip behind it, a global-control register of
    0x0F and a pattern in the other registers. *)
Definition bus_good_chip : bus :=
  mkBus (fun a => if a =? AW9523_REG_CHIPID then 0x23
                  else if a =? AW9523_REG_GCR then 0x0F else 0x5A)
        false [] [].

(** A bus on which nothing is acknowledged for the next four
    transactions. *)
Definition bus_silent : bus :=
  mkBus (fun _ => 0x5A) false [false; false; false; false] [].

(** A bus that acknowledges one transaction and refuses the next. *)
Definition bus_ack_nack : bus :=
  mkBus (fun _ => 0x5A) false [true; false] [].

(** A bus that refuses one transaction and acknowledges the next. *)
Definition bus_nack_ack : bus :=
  mkBus (fun _ => 0x5A) false [false; true] [].

(** A bus with input0 = 0xC3 and input1 = 0x81, no loopback. *)
Definition bus_inputs : bus :=
  mkBus (fun a => if a =? AW9523_REG_INPUT0 then 0xC3
                  else if a =? AW9523_REG_INPUT1 then 0x81 else 0)
        false [] [].

(** * Verification *)

(** ** Bit-level facts *)

Lemma testbit_shiftl_any (a n m : Z) :
  Z.testbit (Z.shiftl a n) m = (0 <=? m) && Z.testbit a (m - n).
Proof.
  destruct (Z.leb_spec 0 m) as [H|H]; simpl.
  - now apply Z.shiftl_spec.
  - now apply Z.testbit_neg_r.
Qed.

Lemma testbit_shiftr_any (a n m : Z) :
  Z.testbit (Z.shiftr a n) m = (0 <=? m) && Z.testbit a (m + n).
Proof.
  destruct (Z.leb_spec 0 m) as [H|H]; simpl.
  - now apply Z.shiftr_spec.
  - now apply Z.testbit_neg_r.
Qed.

Lemma testbit_lnot_any (a m : Z) :
  Z.testbit (Z.lnot a) m = (0 <=? m) && negb (Z.testbit a m).
Proof.
  destruct (Z.leb_spec 0 m) as [H|H]; simpl.
  - now apply Z.lnot_spec.
  - now apply Z.testbit_neg_r.
Qed.

Lemma testbit_ones_any (n m : Z) :
  0 <= n -> Z.testbit (Z.ones n) m = (0 <=? m) && (m <? n).
Proof.
  intros Hn. destruct (Z.leb_spec 0 m) as [H|H]; simpl.
  - now apply Z.testbit_ones_nonneg.
  - now apply Z.testbit_neg_r.
Qed.

Lemma testbit_u8 (x m : Z) :
  Z.testbit (u8 x) m = Z.testbit x m && ((0 <=? m) && (m <? 8)).
Proof.
  unfold u8. change 0xFF with (Z.ones 8).
  now rewrite Z.land_spec, testbit_ones_any by lia.
Qed.

Lemma testbit_u16 (x m : Z) :
  Z.testbit (u16 x) m = Z.testbit x m && ((0 <=? m) && (m <? 16)).
Proof.
  unfold u16. change 0xFFFF with (Z.ones 16).
  now rewrite Z.land_spec, testbit_ones_any by lia.
Qed.

Lemma testbit_u32 (x m : Z) :
  Z.testbit (u32 x) m = Z.testbit x m && ((0 <=? m) && (m <? 32)).
Proof.
  unfold u32. change 0xFFFFFFFF with (Z.ones 32).
  now rewrite Z.land_spec, testbit_ones_any by lia.
Qed.

Lemma testbit_byte_mask (x m : Z) :
  Z.testbit (Z.land x 0xFF) m = Z.testbit x m && ((0 <=? m) && (m <? 8)).
Proof. exact (testbit_u8 x m). Qed.

Lemma testbit_above_16 (m j : Z) :
  0 <= m < 2 ^ 16 -> 16 <= j -> Z.testbit m j = false.
Proof.
  intros Hm Hj. destruct (Z.eq_dec m 0) as [->|Hne].
  - apply Z.testbit_0_l.
  - apply Z.bits_above_log2; [lia|].
    assert (Z.log2 m < 16) by (apply Z.log2_lt_pow2; lia). lia.
Qed.

Lemma testbit_255 (m : Z) : Z.testbit 255 m = (0 <=? m) && (m <? 8).
Proof. change 255 with (Z.ones 8). apply testbit_ones_any. lia. Qed.

Lemma testbit_one (m : Z) : Z.testbit 1 m = (m =? 0).
Proof.
  change 1 with (Z.ones 1). rewrite testbit_ones_any by lia.
  destruct (Z.leb_spec 0 m), (Z.ltb_spec m 1), (Z.eqb_spec m 0);
    simpl; try reflexivity; lia.
Qed.

Lemma testbit_b2u (b : bool) (m : Z) : Z.testbit (b2u b) m = b && (m =? 0).
Proof.
  destruct b; simpl.
  - apply testbit_one.
  - apply Z.testbit_0_l.
Qed.

(** Rewriting a [Z.testbit] of a bitwise expression down to its
    atoms, then splitting on the comparisons that appear. *)
Ltac bits_rewrite :=
  repeat (rewrite ?Z.land_spec, ?Z.lor_spec, ?testbit_u8, ?testbit_u16,
           ?testbit_u32, ?testbit_byte_mask, ?testbit_shiftl_any,
           ?testbit_shiftr_any, ?testbit_lnot_any, ?testbit_one, ?testbit_255,
           ?testbit_b2u, ?Z.testbit_0_l).

Ltac split_cmp :=
  repeat match goal with
    | |- context [?a <=? ?b] => destruct (Z.leb_spec a b); try lia
    | |- context [?a <? ?b] => destruct (Z.ltb_spec a b); try lia
    | |- context [?a =? ?b] => destruct (Z.eqb_spec a b); try lia
    end.

Ltac bool_simpl :=
  cbn [andb orb negb];
  repeat (rewrite ?andb_true_r, ?andb_false_r, ?orb_false_r, ?orb_true_r;
          cbn [andb orb negb]).

Ltac bitblast :=
  bits_rewrite; split_cmp; bool_simpl;
  try reflexivity;
  try (f_equal; lia).

(** The read-modify-write of a one-bit field: bit [p] takes the new
    value, every other bit keeps its own. *)
Lemma rmw_bit (val d p i : Z) :
  0 <= p < 32 -> 0 <= i < 32 ->
  Z.testbit
    (Z.lor (Z.land val (u32 (Z.lnot (u32 (Z.shiftl 1 p)))))
           (u32 (Z.shiftl (Z.land d 1) p))) i
  = if i =? p then Z.testbit d 0 else Z.testbit val i.
Proof.
  intros Hp Hi. bits_rewrite.
  destruct (Z.eqb_spec i p) as [->|Hne].
  - replace (p - p) with 0 by lia. split_cmp. bool_simpl. reflexivity.
  - split_cmp; bool_simpl; reflexivity.
Qed.

(** Two bytes joined least-significant first. *)
Lemma join2_testbit (b0 b1 i : Z) :
  Z.testbit (join_bytes LSBFIRST [u8 b0; u8 b1]) i
  = if i <? 8 then Z.testbit (u8 b0) i else Z.testbit (u8 b1) (i - 8).
Proof.
  unfold join_bytes. cbn [fold_left rev app].
  rewrite Z.shiftl_0_l. change (u32 0) with 0. rewrite Z.lor_0_l.
  bits_rewrite. split_cmp; bool_simpl; try reflexivity.
Qed.

(** ** Running bus computations *)

Ltac run :=
  cbv beta iota zeta delta
    [reset outputGPIO inputGPIO interruptEnableGPIO configureDirection
     configureLEDMode analogWrite analogWrite_reg digitalWrite digitalRead
     enableInterrupt pinMode when openDrainPort0 begin
     bits_write bits_read reg_write reg_read reg1 reg2
     i2c_begin i2c_write i2c_read next_ack advance bind ret
     fill_buffer split_bytes load_bytes dev_load
     regs loopback acks trace r_address r_width r_byteorder
     b_register b_bits b_shift fst snd Nat.ltb Nat.leb].

Lemma acked_hd (l : list bool) :
  forallb (fun b => b) l = true -> hd true l = true.
Proof.
  destruct l as [|b l]; simpl; [reflexivity|].
  now intros [-> _]%andb_true_iff.
Qed.

Lemma acked_tl (l : list bool) :
  forallb (fun b => b) l = true -> forallb (fun b => b) (tl l) = true.
Proof.
  destruct l as [|b l]; simpl; [reflexivity|].
  now intros [_ ->]%andb_true_iff.
Qed.

(** On a reliable bus every outcome drawn from the script is an
    acknowledge. *)
Ltac all_acked H :=
  unfold reliable in H; cbn [acks] in H;
  repeat match goal with
    | |- context [hd true ?l] =>
        rewrite (acked_hd l) by (repeat apply acked_tl; exact H)
    end.

(** Comparisons between register addresses (a macro, or a macro plus
    an auto-increment offset) are decided by evaluation. *)
Ltac is_addr a :=
  lazymatch a with
  | ?x + 1 => is_addr x
  | Z0 => idtac
  | Zpos _ => idtac
  | _ => is_const a
  end.

Ltac closed_eqb :=
  repeat match goal with
    | |- context [?a =? ?b] =>
        is_addr a; is_addr b;
        let v := eval vm_compute in (a =? b) in
        change (a =? b) with v
    end;
  cbv iota.

Lemma join1 (b : Z) : join_bytes LSBFIRST [b] = b.
Proof.
  unfold join_bytes. cbn [fold_left rev app].
  rewrite Z.shiftl_0_l. change (u32 0) with 0. apply Z.lor_0_l.
Qed.

Lemma dev_store_same (f : Z -> Z) (a v : Z) : dev_store f a v a = v.
Proof. unfold dev_store. now rewrite Z.eqb_refl. Qed.

Lemma dev_store_other (f : Z -> Z) (a v x : Z) :
  x <> a -> dev_store f a v x = f x.
Proof. unfold dev_store. intros H. now apply Z.eqb_neq in H as ->. Qed.

(** A write of [n] bytes at [a] leaves the registers outside
    [a .. a+n-1] alone. *)
Lemma store_bytes_other (data : list Z) (f : Z -> Z) (a x : Z) :
  x < a \/ a + Z.of_nat (length data) <= x ->
  store_bytes f a data x = f x.
Proof.
  revert f a. induction data as [|b rest IH]; intros f a H; simpl.
  - reflexivity.
  - rewrite IH by (simpl length in H; lia).
    apply dev_store_other. simpl length in H. lia.
Qed.

(** ** Register fields, tables and frames *)

(** C9: openDrainPort0(true) never touches a register other than the
    global-control register (so none of port 1), and on a bus that
    acknowledges it succeeds, leaves bit 4 of the global-control
    register at 0 and keeps every other bit of that register. *)
Theorem openDrainPort0_true_bit4 (s : bus) :
  let s' := snd (openDrainPort0 true s) in
  (forall a, a <> AW9523_REG_GCR -> regs s' a = regs s a) /\
  (reliable s = true ->
   fst (openDrainPort0 true s) = true /\
   Z.testbit (regs s' AW9523_REG_GCR) 4 = false /\
   (forall i, i <> 4 ->
      Z.testbit (regs s' AW9523_REG_GCR) i = Z.testbit (reg s AW9523_REG_GCR) i)).
Proof.
  destruct s as [f lb ak tr]. run. split.
  - intros a Ha. destruct (hd true (tl ak)); [|reflexivity].
    unfold store_bytes. now apply dev_store_other.
  - intros Hrel. all_acked Hrel. closed_eqb.
    unfold store_bytes. rewrite dev_store_same, join1.
    change (Z.shiftl 1 1 - 1) with 1.
    assert (Hload : (if lb then u8 (f AW9523_REG_GCR) else u8 (f AW9523_REG_GCR))
                    = u8 (f AW9523_REG_GCR)) by (destruct lb; reflexivity).
    rewrite Hload. unfold reg. cbn [regs].
    split; [reflexivity|]. split.
    + rewrite testbit_byte_mask, testbit_u32, rmw_bit by lia. reflexivity.
    + intros i Hi. rewrite testbit_byte_mask, testbit_u32.
      destruct (Z.leb_spec 0 i); [destruct (Z.ltb_spec i 8)|].
      * rewrite rmw_bit by lia.
        apply Z.eqb_neq in Hi as ->. bitblast.
      * bitblast.
      * rewrite !(Z.testbit_neg_r _ i) by lia. reflexivity.
Qed.

Lemma openDrainPort0_true_bit4_witness :
  regs (snd (openDrainPort0 true (mkBus (fun _ => 0xFF) false [] [])))
       AW9523_REG_LEDMODE1 = 0xFF /\
  fst (openDrainPort0 true (mkBus (fun _ => 0xFF) false [] [])) = true /\
  Z.testbit (regs (snd (openDrainPort0 true (mkBus (fun _ => 0xFF) false [] [])))
                  AW9523_REG_GCR) 4 = false /\
  Z.testbit (regs (snd (openDrainPort0 true (mkBus (fun _ => 0xFF) false [] [])))
                  AW9523_REG_GCR) 5 = true.
Proof.
  destruct (openDrainPort0_true_bit4 (mkBus (fun _ => 0xFF) false [] []))
    as [Hframe Hbit].
  destruct (Hbit eq_refl) as [Hok [H4 Hother]].
  split; [apply Hframe; discriminate|].
  split; [exact Hok|]. split; [exact H4|].
  apply (Hother 5). discriminate.
Defined.

(** C10: a mode that is none of OUTPUT, INPUT and AW9523_LED_MODE makes
    pinMode skip all three branches: no transaction happens and the
    bus (registers, script and trace) is returned as it was. *)
Theorem pinMode_other_mode_noop (p mode : Z) (s : bus) :
  0 <= p <= 15 ->
  mode <> OUTPUT -> mode <> INPUT -> mode <> AW9523_LED_MODE ->
  pinMode p mode s = (tt, s).
Proof.
  intros _ Hout Hin Hled. unfold pinMode, when.
  apply Z.eqb_neq in Hout, Hin, Hled. rewrite Hout, Hin, Hled.
  reflexivity.
Qed.

Lemma pinMode_other_mode_noop_witness :
  pinMode 9 0x42 (mkBus (fun _ => 0x5A) false [false] [])
  = (tt, mkBus (fun _ => 0x5A) false [false] []).
Proof.
  apply pinMode_other_mode_noop; [lia | discriminate ..].
Defined.

Lemma u8_small (x : Z) : 0 <= x < 256 -> u8 x = x.
Proof.
  intros H. unfold u8. change 0xFF with (Z.ones 8).
  rewrite Z.land_ones by lia. now apply Z.mod_small.
Qed.

Lemma u32_small (x : Z) : 0 <= x < 2 ^ 32 -> u32 x = x.
Proof.
  intros H. unfold u32. change 0xFFFFFFFF with (Z.ones 32).
  rewrite Z.land_ones by lia. now apply Z.mod_small.
Qed.

Example dimming_register_9 : analogWrite_reg 9 = Some (0x20 + 1).
Proof. reflexivity. Qed.

Example dimming_register_13 : analogWrite_reg 13 = Some (0x2C + 1).
Proof. reflexivity. Qed.

Lemma analogWrite_reg_defined (pin : Z) :
  0 <= pin <= 15 -> analogWrite_reg pin = Some (dimming_register pin).
Proof.
  intros H. unfold analogWrite_reg, dimming_register.
  split_cmp; cbn [andb]; f_equal; rewrite u8_small; lia.
Qed.

(** C8: for a pin in 0..15 the register chosen by analogWrite is
    defined and is the documented one (0x24+pin, 0x20+(pin-8),
    0x2C+(pin-12)); the call is one single-byte write of the value to
    that register and no other register changes. *)
Theorem analogWrite_documented_register (pin val : Z) (s : bus) :
  0 <= pin <= 15 -> 0 <= val <= 255 ->
  analogWrite_reg pin = Some (dimming_register pin) /\
  exists s',
    analogWrite pin val s = Some (tt, s') /\
    trace s' = trace s ++ [EvWrite (dimming_register pin) [val] (next_ack s)] /\
    (forall a, a <> dimming_register pin -> regs s' a = regs s a) /\
    (next_ack s = true -> regs s' (dimming_register pin) = val).
Proof.
  intros Hpin Hval. split; [now apply analogWrite_reg_defined|].
  unfold analogWrite. rewrite analogWrite_reg_defined by assumption.
  eexists. split; [reflexivity|].
  assert (Hv : Z.land (u32 val) 255 = val).
  { rewrite u32_small by lia. apply u8_small. lia. }
  destruct s as [f lb ak tr]. run. rewrite Hv.
  split; [reflexivity|]. split.
  - intros a Ha. destruct (hd true ak); [|reflexivity].
    now apply dev_store_other.
  - intros ->. apply dev_store_same.
Qed.

Lemma analogWrite_documented_register_witness :
  analogWrite_reg 13 = Some 0x2D /\
  exists s',
    analogWrite 13 200 (mkBus (fun _ => 0) false [] []) = Some (tt, s') /\
    trace s' = [EvWrite 0x2D [200] true] /\
    regs s' 0x2C = 0 /\
    regs s' 0x2D = 200.
Proof.
  destruct (analogWrite_documented_register 13 200 (mkBus (fun _ => 0) false [] []))
    as [Hreg [s' [Hrun [Htr [Hframe Hval]]]]]; [lia | lia |].
  split; [exact Hreg|]. exists s'.
  split; [exact Hrun|]. split; [exact Htr|].
  split; [apply (Hframe 0x2C); discriminate | apply Hval; reflexivity].
Defined.

(** C5: whenever configureDirection(m) reports success, config0 holds
    ~m & 0xFF and config1 holds ~(m>>8) & 0xFF; on a bus that
    acknowledges it does report success. *)
Theorem configureDirection_inverted (m : Z) (s : bus) :
  0 <= m < 2 ^ 16 ->
  (reliable s = true -> fst (configureDirection m s) = true) /\
  (fst (configureDirection m s) = true ->
   let s' := snd (configureDirection m s) in
   regs s' AW9523_REG_CONFIG0 = Z.land (Z.lnot m) 0xFF /\
   regs s' AW9523_REG_CONFIG1 = Z.land (Z.lnot (Z.shiftr m 8)) 0xFF).
Proof.
  intros _. destruct s as [f lb ak tr]. split.
  - intros Hrel. run. all_acked Hrel. cbn [negb]. all_acked Hrel. reflexivity.
  - run. destruct (hd true ak); cbn [negb fst snd]; [|discriminate].
    destruct (hd true (tl ak)); cbn [negb fst snd]; [|discriminate].
    intros _. unfold store_bytes, dev_store. closed_eqb. split.
    + apply Z.bits_inj'. intros i Hi. bitblast.
    + apply Z.bits_inj'. intros i Hi. bitblast.
Qed.

Lemma configureDirection_inverted_witness :
  fst (configureDirection 0x1234 (mkBus (fun _ => 0) false [] [])) = true /\
  regs (snd (configureDirection 0x1234 (mkBus (fun _ => 0) false [] [])))
       AW9523_REG_CONFIG0 = 0xCB /\
  regs (snd (configureDirection 0x1234 (mkBus (fun _ => 0) false [] [])))
       AW9523_REG_CONFIG1 = 0xED.
Proof.
  destruct (configureDirection_inverted 0x1234 (mkBus (fun _ => 0) false [] []))
    as [Hok Hregs]; [lia|].
  split; [apply Hok; reflexivity|].
  apply Hregs, Hok. reflexivity.
Defined.

(** ** Initialization *)

(** The three guarded steps of begin: a failed probe, a failed reset or
    a wrong identity each end begin with [false]. *)
Lemma begin_guarded_steps (s : bus) :
  let s1 := snd (i2c_begin s) in
  let s2 := snd (reset s1) in
  fst (i2c_begin s) = false \/
  fst (reset s1) = false \/
  fst (reg_read (reg1 AW9523_REG_CHIPID) s2) <> 0x23 ->
  fst (begin s) = false.
Proof.
  destruct s as [f lb ak tr]. run.
  destruct (hd true ak); cbn [negb fst]; [|reflexivity].
  destruct (hd true (tl ak)); cbn [negb fst]; [|reflexivity].
  intros [H|[H|H]]; try discriminate.
  match goal with
  | |- context [negb (?x =? 35)] => destruct (Z.eqb_spec x 35) as [E|E]
  end; [exact (False_ind _ (H E)) | reflexivity].
Qed.

(** begin returns true exactly when the three guarded steps pass;
    what the configuration calls after them return has no influence. *)
Lemma begin_result (s : bus) :
  let s1 := snd (i2c_begin s) in
  let s2 := snd (reset s1) in
  fst (begin s)
  = fst (i2c_begin s) && fst (reset s1)
    && (fst (reg_read (reg1 AW9523_REG_CHIPID) s2) =? 0x23).
Proof.
  destruct s as [f lb ak tr]. run.
  destruct (hd true ak); cbn [negb andb fst]; [|reflexivity].
  destruct (hd true (tl ak)); cbn [negb andb fst]; [|reflexivity].
  match goal with
  | |- context [negb (?x =? 35)] => destruct (x =? 35)
  end; cbn [negb]; [|reflexivity].
  repeat match goal with
         | |- context [negb (hd true ?l)] => destruct (hd true l); cbn [negb fst]
         end; reflexivity.
Qed.

(** C7: when begin gets to the identity read and that read yields
    anything but 0x23 (a failed read yields 0xFFFFFFFF), begin returns
    false, and its whole bus traffic is the probe, the reset write and
    the identity read: no direction, open-drain or interrupt-enable
    write follows, and no register besides the soft-reset one
    changes. *)
Theorem begin_identity_mismatch (s : bus) :
  let s1 := snd (i2c_begin s) in
  let s2 := snd (reset s1) in
  fst (i2c_begin s) = true ->
  fst (reset s1) = true ->
  fst (reg_read (reg1 AW9523_REG_CHIPID) s2) <> 0x23 ->
  fst (begin s) = false /\
  trace (snd (begin s))
  = trace s ++ [EvProbe true;
                EvWrite AW9523_REG_SOFTRESET [0] true;
                EvRead AW9523_REG_CHIPID 1 (next_ack s2)] /\
  (forall a, a <> AW9523_REG_SOFTRESET -> regs (snd (begin s)) a = regs s a).
Proof.
  destruct s as [f lb ak tr]. run.
  destruct (hd true ak); cbn [negb fst]; [|discriminate].
  destruct (hd true (tl ak)); cbn [negb fst]; [|discriminate].
  intros _ _ H.
  match goal with
  | |- context [negb (?x =? 35)] => destruct (Z.eqb_spec x 35) as [E|E]
  end; [exact (False_ind _ (H E)) |].
  cbn [negb fst snd regs trace].
  split; [reflexivity|]. split.
  - rewrite <- !app_assoc. reflexivity.
  - intros a Ha. unfold store_bytes. now apply dev_store_other.
Qed.

Lemma begin_identity_mismatch_witness :
  fst (begin bus_wrong_chip) = false /\
  trace (snd (begin bus_wrong_chip))
  = [EvProbe true; EvWrite 0x7F [0] true; EvRead 0x10 1 true] /\
  regs (snd (begin bus_wrong_chip)) AW9523_REG_CONFIG0 = 0.
Proof.
  destruct (begin_identity_mismatch bus_wrong_chip) as [Hret [Htr Hregs]];
    [reflexivity | reflexivity | discriminate |].
  split; [exact Hret|]. split; [exact Htr|].
  apply (Hregs AW9523_REG_CONFIG0). discriminate.
Defined.

(** C2: on [bus_config_nack] the configureDirection(0) step fails (its
    write to config0 is not acknowledged and the call returns false),
    yet begin returns true: the results of the three configuration
    calls are dropped. *)
Theorem begin_drops_configuration_failure :
  fst (begin bus_config_nack) = true /\
  In (EvWrite AW9523_REG_CONFIG0 [0xFF; 0xFF] false)
     (trace (snd (begin bus_config_nack))) /\
  fst (configureDirection 0x0
         (snd (reg_read (reg1 AW9523_REG_CHIPID)
                 (snd (reset (snd (i2c_begin bus_config_nack))))))) = false.
Proof.
  split; [reflexivity|]. split; [|reflexivity].
  vm_compute. tauto.
Qed.

(** ** Whole-port operations *)

(** C1: on the loopback bus outputGPIO(0x1234) succeeds and the
    following inputGPIO() returns 0x3434, not 0x1234: both output
    registers are written with the unshifted argument, so output1 ends
    up with the low byte (and the high byte lands in config0). *)
Theorem outputGPIO_inputGPIO_loses_high_byte :
  let s' := snd (outputGPIO 0x1234 bus_loopback0) in
  fst (outputGPIO 0x1234 bus_loopback0) = true /\
  fst (inputGPIO s') = 0x3434 /\
  regs s' AW9523_REG_OUTPUT0 = 0x34 /\
  regs s' AW9523_REG_OUTPUT1 = 0x34 /\
  regs s' AW9523_REG_CONFIG0 = 0x12.
Proof. repeat split; reflexivity. Qed.

(** C6: configureDirection(0) on cleared registers also changes the
    register after config1, intenable0, which ends up holding 0xFF:
    the width-2 write at config1 spills its second byte there. *)
Theorem configureDirection_spills_into_intenable0 :
  let s' := snd (configureDirection 0x0 bus_zero) in
  fst (configureDirection 0x0 bus_zero) = true /\
  regs bus_zero AW9523_REG_INTENABLE0 = 0 /\
  regs s' AW9523_REG_INTENABLE0 = 0xFF /\
  trace s' = [EvWrite AW9523_REG_CONFIG0 [0xFF; 0xFF] true;
              EvWrite AW9523_REG_CONFIG1 [0xFF; 0xFF] true].
Proof. repeat split; reflexivity. Qed.

(** ** Single-pin operations *)

(** C3: enableInterrupt(8, true) with every register at 0xFF leaves
    intenable1 at 0xFF (bit 0 is not cleared) and clears bit 0 of the
    register after it, at address 0x08: for a port-1 pin the bit field
    is shifted by the pin number itself, not by pin - 8. *)
Theorem enableInterrupt_port1_misses_bit :
  let s' := snd (enableInterrupt 8 true bus_ones) in
  regs s' AW9523_REG_INTENABLE1 = 0xFF /\
  Z.testbit (regs s' AW9523_REG_INTENABLE1) (8 mod 8) = true /\
  regs bus_ones 0x08 = 0xFF /\
  regs s' 0x08 = 0xFE /\
  trace s' = [EvRead AW9523_REG_INTENABLE1 2 true;
              EvWrite AW9523_REG_INTENABLE1 [0xFF; 0xFE] true].
Proof. repeat split; reflexivity. Qed.

Lemma land_1_nonzero (x : Z) : negb (Z.land x 1 =? 0) = Z.testbit x 0.
Proof.
  change 1 with (Z.ones 1). rewrite Z.land_ones by lia.
  change (2 ^ 1) with 2. rewrite <- Z.bit0_mod.
  destruct (Z.testbit x 0); reflexivity.
Qed.

Lemma output_word_testbit (f : Z -> Z) (p : Z) (v : bool) (i : Z) :
  0 <= p <= 15 -> 0 <= i <= 15 ->
  Z.testbit (output_word f p v) i
  = if i =? p then v
    else if i <? 8 then Z.testbit (f AW9523_REG_OUTPUT0) i
         else Z.testbit (f AW9523_REG_OUTPUT1) (i - 8).
Proof.
  intros Hp Hi. unfold output_word. rewrite rmw_bit by lia.
  rewrite join2_testbit, testbit_b2u, !testbit_u8.
  change (AW9523_REG_OUTPUT0 + 1) with AW9523_REG_OUTPUT1.
  split_cmp; bool_simpl; reflexivity.
Qed.

Lemma digitalWrite_regs (p : Z) (v : bool) (f : Z -> Z) (ak : list bool)
      (tr : list event) :
  forallb (fun b => b) ak = true ->
  exists tr',
    digitalWrite p v (mkBus f true ak tr)
    = (tt, mkBus (store_bytes f AW9523_REG_OUTPUT0
                    [Z.land (u32 (output_word f p v)) 0xFF;
                     Z.land (Z.shiftr (u32 (output_word f p v)) 8) 0xFF])
                 true (tl (tl ak)) tr').
Proof.
  intros Hrel. eexists. run.
  rewrite !(acked_hd ak), !(acked_hd (tl ak)) by (repeat apply acked_tl; exact Hrel).
  closed_eqb. change (Z.shiftl 1 1 - 1) with 1. reflexivity.
Qed.

Lemma output_bit_split (s : bus) (q : Z) :
  0 <= q <= 15 ->
  output_bit s q
  = if q <? 8 then Z.testbit (regs s AW9523_REG_OUTPUT0) q
    else Z.testbit (regs s AW9523_REG_OUTPUT1) (q - 8).
Proof.
  intros Hq. unfold output_bit. destruct (Z.ltb_spec q 8).
  - now rewrite Z.mod_small by lia.
  - f_equal. symmetry. apply (Z.mod_unique q 8 1); lia.
Qed.

(** On a loopback bus that acknowledges, digitalRead returns the
    recorded output bit of the pin. *)
Lemma digitalRead_loopback (p : Z) (s : bus) :
  0 <= p <= 15 -> loopback s = true -> reliable s = true ->
  fst (digitalRead p s) = output_bit s p.
Proof.
  intros Hp Hlb Hrel. rewrite output_bit_split by assumption.
  destruct s as [f lb ak tr]. cbn [loopback] in Hlb. subst lb.
  unfold digitalRead. destruct (Z.leb_spec 8 p), (Z.ltb_spec p 8); try lia.
  - rewrite (u8_small (p - 8)) by lia.
    run. all_acked Hrel. closed_eqb.
    change (Z.shiftl 1 1 - 1) with 1. cbn [regs].
    rewrite land_1_nonzero, testbit_shiftr_any, join2_testbit, testbit_u8.
    split_cmp. bool_simpl. reflexivity.
  - run. all_acked Hrel. closed_eqb.
    change (Z.shiftl 1 1 - 1) with 1. cbn [regs].
    rewrite land_1_nonzero, testbit_shiftr_any, join2_testbit, testbit_u8.
    split_cmp. bool_simpl. reflexivity.
Qed.

(** C4: on a loopback bus that acknowledges, digitalWrite(p, v)
    followed by digitalRead(p) returns v, the recorded output bit of p
    is v, and the recorded output bit of every other pin is as
    before. *)
Theorem digitalWrite_digitalRead (p : Z) (v : bool) (s : bus) :
  0 <= p <= 15 -> loopback s = true -> reliable s = true ->
  let s' := snd (digitalWrite p v s) in
  fst (digitalRead p s') = v /\
  output_bit s' p = v /\
  (forall q, 0 <= q <= 15 -> q <> p -> output_bit s' q = output_bit s q).
Proof.
  intros Hp Hlb Hrel. destruct s as [f lb ak tr].
  cbn [loopback] in Hlb. subst lb. unfold reliable in Hrel. cbn [acks] in Hrel.
  destruct (digitalWrite_regs p v f ak tr Hrel) as [tr' ->]. cbn [snd].
  set (w := output_word f p v).
  assert (Hbit : forall q, 0 <= q <= 15 ->
            output_bit
              (mkBus (store_bytes f AW9523_REG_OUTPUT0
                        [Z.land (u32 w) 0xFF; Z.land (Z.shiftr (u32 w) 8) 0xFF])
                     true (tl (tl ak)) tr') q
            = Z.testbit w q).
  { intros q Hq. rewrite output_bit_split by assumption. cbn [regs].
    unfold store_bytes, dev_store. closed_eqb.
    bits_rewrite. split_cmp; bool_simpl; try reflexivity.
    f_equal. lia. }
  split; [|split].
  - rewrite digitalRead_loopback; [| assumption | reflexivity |].
    + rewrite Hbit by assumption. unfold w.
      rewrite output_word_testbit by assumption. now rewrite Z.eqb_refl.
    + unfold reliable. cbn [acks]. now repeat apply acked_tl.
  - rewrite Hbit by assumption. unfold w.
    rewrite output_word_testbit by assumption. now rewrite Z.eqb_refl.
  - intros q Hq Hne. rewrite Hbit by assumption. unfold w.
    rewrite output_word_testbit by assumption.
    apply Z.eqb_neq in Hne. rewrite Hne.
    rewrite output_bit_split by assumption. reflexivity.
Qed.

Lemma digitalWrite_digitalRead_witness :
  fst (digitalRead 9 (snd (digitalWrite 9 true bus_loopback_pattern))) = true /\
  output_bit (snd (digitalWrite 9 true bus_loopback_pattern)) 9 = true /\
  output_bit (snd (digitalWrite 9 true bus_loopback_pattern)) 10
  = output_bit bus_loopback_pattern 10.
Proof.
  destruct (digitalWrite_digitalRead 9 true bus_loopback_pattern)
    as [Hread [Hbit Hothers]]; [lia | reflexivity | reflexivity |].
  split; [exact Hread|]. split; [exact Hbit|].
  apply Hothers; [lia | discriminate].
Defined.

(** ** What the defective paths do in general *)

(** On a loopback bus that acknowledges, inputGPIO after outputGPIO(m)
    returns the low byte of [m] in both halves. *)
Lemma outputGPIO_inputGPIO_result (m : Z) (s : bus) :
  0 <= m < 2 ^ 16 -> loopback s = true -> reliable s = true ->
  fst (inputGPIO (snd (outputGPIO m s)))
  = Z.lor (u8 m) (Z.shiftl (u8 m) 8).
Proof.
  intros Hm Hlb Hrel. destruct s as [f lb ak tr].
  cbn [loopback] in Hlb. subst lb.
  run. all_acked Hrel. cbn [negb]. all_acked Hrel. cbn [negb].
  run. all_acked Hrel.
  unfold store_bytes, dev_store. closed_eqb.
  apply Z.bits_inj'. intros i Hi.
  rewrite testbit_u16, !Z.lor_spec, testbit_u32, !testbit_shiftl_any,
    !join2_testbit.
  bits_rewrite. split_cmp; bool_simpl; try reflexivity.
  all: try (f_equal; lia).
  apply orb_diag.
Qed.

(** For a port-1 pin enableInterrupt never changes intenable1: the bit
    it rewrites belongs to the register after it. *)
Lemma enableInterrupt_port1_keeps_intenable1 (p : Z) (en : bool) (s : bus) :
  8 <= p <= 15 -> reliable s = true ->
  reg (snd (enableInterrupt p en s)) AW9523_REG_INTENABLE1
  = reg s AW9523_REG_INTENABLE1.
Proof.
  intros Hp Hrel. destruct s as [f lb ak tr].
  unfold enableInterrupt. destruct (Z.leb_spec 8 p); [|lia].
  run. all_acked Hrel. closed_eqb. change (Z.shiftl 1 1 - 1) with 1.
  unfold reg, store_bytes, dev_store. cbn [regs]. closed_eqb.
  assert (Hload : forall a, (if lb then u8 (f a) else u8 (f a)) = u8 (f a))
    by (destruct lb; reflexivity).
  rewrite !Hload.
  apply Z.bits_inj'. intros i Hi.
  rewrite !testbit_u8, testbit_byte_mask, testbit_u32.
  destruct (Z.ltb_spec i 8); [|bitblast].
  rewrite rmw_bit, join2_testbit by lia.
  rewrite testbit_u8. split_cmp; bool_simpl; reflexivity.
Qed.

(** For a port-0 pin enableInterrupt(p, true) clears bit [p] of
    intenable0 and keeps every other register bit. *)
Lemma enableInterrupt_port0 (p : Z) (s : bus) :
  0 <= p <= 7 -> reliable s = true ->
  let s' := snd (enableInterrupt p true s) in
  Z.testbit (reg s' AW9523_REG_INTENABLE0) p = false /\
  (forall i, i <> p ->
     Z.testbit (reg s' AW9523_REG_INTENABLE0) i
     = Z.testbit (reg s AW9523_REG_INTENABLE0) i) /\
  (forall a, a <> AW9523_REG_INTENABLE0 -> reg s' a = reg s a).
Proof.
  intros Hp Hrel. destruct s as [f lb ak tr].
  unfold enableInterrupt. destruct (Z.leb_spec 8 p); [lia|].
  run. all_acked Hrel. closed_eqb. change (Z.shiftl 1 1 - 1) with 1.
  unfold reg, store_bytes. cbn [regs].
  assert (Hload : forall a, (if lb then u8 (f a) else u8 (f a)) = u8 (f a))
    by (destruct lb; reflexivity).
  rewrite !Hload.
  set (w := Z.lor _ _).
  assert (Hw : forall i, 0 <= i < 16 ->
            Z.testbit w i
            = if i =? p then false
              else if i <? 8 then Z.testbit (f AW9523_REG_INTENABLE0) i
                   else Z.testbit (f AW9523_REG_INTENABLE1) (i - 8)).
  { intros i Hi. unfold w. rewrite rmw_bit, join2_testbit by lia.
    rewrite !testbit_u8. change (AW9523_REG_INTENABLE0 + 1) with AW9523_REG_INTENABLE1.
    split_cmp; bool_simpl; reflexivity. }
  clearbody w. split; [|split].
  - unfold dev_store. closed_eqb.
    rewrite testbit_u8, testbit_byte_mask, testbit_u32, Hw by lia.
    now rewrite Z.eqb_refl.
  - intros i Hi. unfold dev_store. closed_eqb.
    rewrite !testbit_u8, testbit_byte_mask, testbit_u32.
    destruct (Z.leb_spec 0 i), (Z.ltb_spec i 8); bool_simpl; try reflexivity.
    rewrite Hw by lia. split_cmp; bool_simpl; reflexivity.
  - intros a Ha. unfold dev_store.
    destruct (Z.eqb_spec a (AW9523_REG_INTENABLE0 + 1)) as [->|Hne].
    + apply Z.bits_inj'. intros i Hi.
      rewrite !testbit_u8, testbit_byte_mask, testbit_shiftr_any, testbit_u32.
      destruct (Z.ltb_spec i 8); [|bitblast].
      rewrite Hw by lia. split_cmp; bool_simpl.
      replace (i + 8 - 8) with i by lia. reflexivity.
    + apply Z.eqb_neq in Ha. rewrite Ha. reflexivity.
Qed.

(** Whenever configureDirection succeeds, intenable0 holds 0xFF
    afterwards, whatever the mask. *)
Lemma configureDirection_intenable0 (m : Z) (s : bus) :
  0 <= m < 2 ^ 16 ->
  fst (configureDirection m s) = true ->
  regs (snd (configureDirection m s)) AW9523_REG_INTENABLE0 = 0xFF.
Proof.
  intros Hm. destruct s as [f lb ak tr]. run.
  destruct (hd true ak); cbn [negb fst snd]; [|discriminate].
  destruct (hd true (tl ak)); cbn [negb fst snd]; [|discriminate].
  intros _. unfold store_bytes, dev_store. closed_eqb.
  apply Z.bits_inj'. intros i Hi. bits_rewrite.
  rewrite (testbit_above_16 m (i + 8 + 8)) by lia.
  split_cmp; bool_simpl; reflexivity.
Qed.

(** * Further properties of the driver *)

(** ** Whole-port writers *)

(** The two bytes a width-2 register sends for an inverted mask. *)
Lemma inverted_low_byte (m : Z) :
  Z.land (u32 (Z.lnot m)) 255 = Z.land (Z.lnot m) 0xFF.
Proof. apply Z.bits_inj'. intros i Hi. bitblast. Qed.

Lemma inverted_high_byte (m : Z) :
  Z.land (Z.shiftr (u32 (Z.lnot m)) 8) 255 = Z.land (Z.lnot (Z.shiftr m 8)) 0xFF.
Proof. apply Z.bits_inj'. intros i Hi. bitblast. Qed.

Lemma inverted_spill_byte (m : Z) :
  0 <= m < 2 ^ 16 ->
  Z.land (Z.shiftr (u32 (Z.lnot (Z.shiftr m 8))) 8) 255 = 0xFF.
Proof.
  intros Hm. apply Z.bits_inj'. intros i Hi. bits_rewrite.
  rewrite (testbit_above_16 m (i + 8 + 8)) by lia.
  split_cmp; bool_simpl; reflexivity.
Qed.

(** Register addresses as numbers, for arithmetic on them. *)
Ltac addrs :=
  unfold AW9523_REG_INPUT0, AW9523_REG_INPUT1, AW9523_REG_OUTPUT0,
    AW9523_REG_OUTPUT1, AW9523_REG_CONFIG0, AW9523_REG_CONFIG1,
    AW9523_REG_INTENABLE0, AW9523_REG_INTENABLE1, AW9523_REG_CHIPID,
    AW9523_REG_GCR, AW9523_REG_LEDMODE0, AW9523_REG_LEDMODE1,
    AW9523_REG_SOFTRESET in *.

(** Unfolding a successful two-write method down to the stored
    bytes. *)
Ltac two_writes_ok :=
  run;
  destruct (hd true _); cbn [negb fst snd]; [|discriminate];
  destruct (hd true (tl _)); cbn [negb fst snd]; [|discriminate];
  intros _; unfold store_bytes, dev_store.

(** interruptEnableGPIO(m), when it reports success, leaves ~m & 0xFF
    in intenable0 and ~(m>>8) & 0xFF in intenable1, writes 0xFF to the
    register after intenable1 and changes nothing else. *)
Theorem interruptEnableGPIO_inverted (m : Z) (s : bus) :
  0 <= m < 2 ^ 16 ->
  fst (interruptEnableGPIO m s) = true ->
  let s' := snd (interruptEnableGPIO m s) in
  regs s' AW9523_REG_INTENABLE0 = Z.land (Z.lnot m) 0xFF /\
  regs s' AW9523_REG_INTENABLE1 = Z.land (Z.lnot (Z.shiftr m 8)) 0xFF /\
  regs s' (AW9523_REG_INTENABLE1 + 1) = 0xFF /\
  (forall a, a < AW9523_REG_INTENABLE0 \/ AW9523_REG_INTENABLE1 + 1 < a ->
     regs s' a = regs s a).
Proof.
  intros Hm. destruct s as [f lb ak tr]. two_writes_ok.
  closed_eqb. rewrite inverted_low_byte, inverted_spill_byte by assumption.
  repeat split.
  - apply Z.bits_inj'. intros i Hi. bitblast.
  - intros a Ha. addrs.
    split_cmp; reflexivity.
Qed.

Lemma interruptEnableGPIO_inverted_witness :
  regs (snd (interruptEnableGPIO 0x1234 bus_good_chip)) AW9523_REG_INTENABLE0
  = 0xCB /\
  regs (snd (interruptEnableGPIO 0x1234 bus_good_chip)) AW9523_REG_INTENABLE1
  = 0xED /\
  regs (snd (interruptEnableGPIO 0x1234 bus_good_chip)) 0x08 = 0xFF /\
  regs (snd (interruptEnableGPIO 0x1234 bus_good_chip)) AW9523_REG_CONFIG1 = 0x5A.
Proof.
  destruct (interruptEnableGPIO_inverted 0x1234 bus_good_chip)
    as [H0 [H1 [H2 Hframe]]]; [lia | reflexivity |].
  split; [exact H0|]. split; [exact H1|]. split; [exact H2|].
  apply (Hframe AW9523_REG_CONFIG1). left. reflexivity.
Defined.

(** configureLEDMode(m), when it reports success, leaves ~m & 0xFF in
    ledmode0 and ~(m>>8) & 0xFF in ledmode1, writes 0xFF to the
    register after ledmode1 and changes nothing else. *)
Theorem configureLEDMode_inverted (m : Z) (s : bus) :
  0 <= m < 2 ^ 16 ->
  fst (configureLEDMode m s) = true ->
  let s' := snd (configureLEDMode m s) in
  regs s' AW9523_REG_LEDMODE0 = Z.land (Z.lnot m) 0xFF /\
  regs s' AW9523_REG_LEDMODE1 = Z.land (Z.lnot (Z.shiftr m 8)) 0xFF /\
  regs s' (AW9523_REG_LEDMODE1 + 1) = 0xFF /\
  (forall a, a < AW9523_REG_LEDMODE0 \/ AW9523_REG_LEDMODE1 + 1 < a ->
     regs s' a = regs s a).
Proof.
  intros Hm. destruct s as [f lb ak tr]. two_writes_ok.
  closed_eqb. rewrite inverted_low_byte, inverted_spill_byte by assumption.
  repeat split.
  - apply Z.bits_inj'. intros i Hi. bitblast.
  - intros a Ha. addrs.
    split_cmp; reflexivity.
Qed.

Lemma configureLEDMode_inverted_witness :
  regs (snd (configureLEDMode 0x00F0 bus_good_chip)) AW9523_REG_LEDMODE0 = 0x0F /\
  regs (snd (configureLEDMode 0x00F0 bus_good_chip)) AW9523_REG_LEDMODE1 = 0xFF /\
  regs (snd (configureLEDMode 0x00F0 bus_good_chip)) 0x14 = 0xFF /\
  regs (snd (configureLEDMode 0x00F0 bus_good_chip)) AW9523_REG_GCR = 0x0F.
Proof.
  destruct (configureLEDMode_inverted 0x00F0 bus_good_chip)
    as [H0 [H1 [H2 Hframe]]]; [lia | reflexivity |].
  split; [exact H0|]. split; [exact H1|]. split; [exact H2|].
  apply (Hframe AW9523_REG_GCR). left. reflexivity.
Defined.

(** outputGPIO(m), when it reports success, leaves the low byte of m
    in both output registers and the high byte of m in the register
    after output1 (config0), and changes nothing else. *)
Theorem outputGPIO_stored (m : Z) (s : bus) :
  0 <= m < 2 ^ 16 ->
  fst (outputGPIO m s) = true ->
  let s' := snd (outputGPIO m s) in
  regs s' AW9523_REG_OUTPUT0 = Z.land m 0xFF /\
  regs s' AW9523_REG_OUTPUT1 = Z.land m 0xFF /\
  regs s' AW9523_REG_CONFIG0 = Z.shiftr m 8 /\
  (forall a, a < AW9523_REG_OUTPUT0 \/ AW9523_REG_CONFIG0 < a ->
     regs s' a = regs s a).
Proof.
  intros Hm. destruct s as [f lb ak tr]. two_writes_ok.
  closed_eqb. rewrite (u32_small m) by lia.
  repeat split.
  - apply Z.bits_inj'. intros i Hi. bits_rewrite.
    destruct (Z.ltb_spec i 8).
    + split_cmp; bool_simpl; reflexivity.
    + rewrite (testbit_above_16 m (i + 8)) by lia.
      split_cmp; bool_simpl; reflexivity.
  - intros a Ha. addrs.
    split_cmp; reflexivity.
Qed.

Lemma outputGPIO_stored_witness :
  regs (snd (outputGPIO 0xBEEF bus_good_chip)) AW9523_REG_OUTPUT0 = 0xEF /\
  regs (snd (outputGPIO 0xBEEF bus_good_chip)) AW9523_REG_OUTPUT1 = 0xEF /\
  regs (snd (outputGPIO 0xBEEF bus_good_chip)) AW9523_REG_CONFIG0 = 0xBE /\
  regs (snd (outputGPIO 0xBEEF bus_good_chip)) AW9523_REG_CONFIG1 = 0x5A.
Proof.
  destruct (outputGPIO_stored 0xBEEF bus_good_chip)
    as [H0 [H1 [H2 Hframe]]]; [lia | reflexivity |].
  split; [exact H0|]. split; [exact H1|]. split; [exact H2|].
  apply (Hframe AW9523_REG_CONFIG1). right. reflexivity.
Defined.

(** When the first write of a whole-port writer is not acknowledged the
    method returns false after that single transaction: the second
    write is never attempted and no register changes. *)
Theorem port_writers_stop_at_first_nack (m : Z) (s : bus) :
  next_ack s = false ->
  (fst (outputGPIO m s) = false /\
   regs (snd (outputGPIO m s)) = regs s /\
   length (trace (snd (outputGPIO m s))) = S (length (trace s))) /\
  (fst (interruptEnableGPIO m s) = false /\
   regs (snd (interruptEnableGPIO m s)) = regs s /\
   length (trace (snd (interruptEnableGPIO m s))) = S (length (trace s))) /\
  (fst (configureDirection m s) = false /\
   regs (snd (configureDirection m s)) = regs s /\
   length (trace (snd (configureDirection m s))) = S (length (trace s))) /\
  (fst (configureLEDMode m s) = false /\
   regs (snd (configureLEDMode m s)) = regs s /\
   length (trace (snd (configureLEDMode m s))) = S (length (trace s))).
Proof.
  destruct s as [f lb ak tr]. unfold next_ack. cbn [acks]. intros Hnack.
  run. rewrite Hnack. cbn [negb fst snd].
  rewrite !length_app. cbn [length].
  repeat split; lia.
Qed.

Lemma port_writers_stop_at_first_nack_witness :
  fst (configureDirection 0xFFFF bus_silent) = false /\
  regs (snd (configureDirection 0xFFFF bus_silent)) AW9523_REG_CONFIG0 = 0x5A /\
  length (trace (snd (outputGPIO 0xFFFF bus_silent))) = 1%nat.
Proof.
  destruct (port_writers_stop_at_first_nack 0xFFFF bus_silent)
    as [[_ [_ Hlen]] [_ [[Hret [Hregs _]] _]]]; [reflexivity|].
  split; [exact Hret|]. split; [now rewrite Hregs | exact Hlen].
Defined.

(** When the first write is acknowledged and the second is not,
    configureDirection returns false although both config registers
    already hold the requested inverted bytes: the first width-2 write
    has covered config1 too. *)
Theorem configureDirection_second_nack (m : Z) (s : bus) :
  0 <= m < 2 ^ 16 ->
  next_ack s = true ->
  next_ack (snd (reg_write (reg2 AW9523_REG_CONFIG0) (Z.lnot m) s)) = false ->
  let s' := snd (configureDirection m s) in
  fst (configureDirection m s) = false /\
  regs s' AW9523_REG_CONFIG0 = Z.land (Z.lnot m) 0xFF /\
  regs s' AW9523_REG_CONFIG1 = Z.land (Z.lnot (Z.shiftr m 8)) 0xFF /\
  (forall a, a <> AW9523_REG_CONFIG0 -> a <> AW9523_REG_CONFIG1 ->
     regs s' a = regs s a).
Proof.
  intros Hm. destruct s as [f lb ak tr]. run. intros H1 H2.
  rewrite H1. cbn [negb]. rewrite H2. cbn [negb fst snd].
  unfold store_bytes, dev_store. closed_eqb.
  rewrite inverted_low_byte, inverted_high_byte.
  repeat split.
  intros a Ha0 Ha1. addrs.
  split_cmp; reflexivity.
Qed.

Lemma configureDirection_second_nack_witness :
  fst (configureDirection 0x1234 bus_ack_nack) = false /\
  regs (snd (configureDirection 0x1234 bus_ack_nack)) AW9523_REG_CONFIG0 = 0xCB /\
  regs (snd (configureDirection 0x1234 bus_ack_nack)) AW9523_REG_CONFIG1 = 0xED /\
  regs (snd (configureDirection 0x1234 bus_ack_nack)) AW9523_REG_INTENABLE0 = 0x5A.
Proof.
  destruct (configureDirection_second_nack 0x1234 bus_ack_nack)
    as [Hret [H0 [H1 Hframe]]]; [lia | reflexivity | reflexivity |].
  split; [exact Hret|]. split; [exact H0|]. split; [exact H1|].
  apply Hframe; discriminate.
Defined.

(** ** Initialization, the successful run *)

(** Running a method on a reliable bus: each acknowledge found lets
    the computation proceed to the next transaction. *)
Ltac drive H :=
  repeat (progress (all_acked H; cbn [negb]; run)).

(** With the right chip on a bus that acknowledges, begin returns true
    after nine transactions and leaves all pins as inputs (config0 =
    config1 = 0xFF), port 0 push-pull (bit 4 of the global-control
    register set, its other bits kept) and all interrupts disabled
    (intenable0 = intenable1 = 0xFF). *)
Theorem begin_success_state (s : bus) :
  reliable s = true ->
  reg s AW9523_REG_CHIPID = 0x23 ->
  let s' := snd (begin s) in
  fst (begin s) = true /\
  regs s' AW9523_REG_CONFIG0 = 0xFF /\
  regs s' AW9523_REG_CONFIG1 = 0xFF /\
  regs s' AW9523_REG_INTENABLE0 = 0xFF /\
  regs s' AW9523_REG_INTENABLE1 = 0xFF /\
  Z.testbit (regs s' AW9523_REG_GCR) 4 = true /\
  (forall i, i <> 4 ->
     Z.testbit (regs s' AW9523_REG_GCR) i = Z.testbit (reg s AW9523_REG_GCR) i) /\
  regs s' AW9523_REG_SOFTRESET = 0 /\
  length (trace s') = (length (trace s) + 9)%nat.
Proof.
  intros Hrel Hid. destruct s as [f lb ak tr]. unfold reg in *. cbn [regs] in *.
  assert (Hload : forall a, (if lb then u8 (f a) else u8 (f a)) = u8 (f a))
    by (destruct lb; reflexivity).
  run. drive Hrel.
  match goal with
  | |- context [negb (?x =? 35)] => destruct (Z.eqb_spec x 35) as [E|E]
  end.
  2:{ exfalso. apply E. closed_eqb. rewrite join1.
      unfold store_bytes, dev_store. closed_eqb. rewrite Hload. exact Hid. }
  clear E. drive Hrel. cbn [fst snd].
  unfold store_bytes, dev_store. closed_eqb.
  rewrite Hload, join1. change (Z.shiftl 1 1 - 1) with 1.
  rewrite !length_app. cbn [length].
  repeat split; try reflexivity.
  - rewrite testbit_byte_mask, testbit_u32, rmw_bit by lia. reflexivity.
  - intros i Hi. rewrite testbit_byte_mask, testbit_u32, testbit_u8.
    destruct (Z.leb_spec 0 i); [destruct (Z.ltb_spec i 8)|].
    + rewrite rmw_bit by lia. apply Z.eqb_neq in Hi as ->.
      rewrite testbit_u8. split_cmp. bool_simpl. reflexivity.
    + split_cmp; bool_simpl; reflexivity.
    + rewrite !(Z.testbit_neg_r _ i) by lia. reflexivity.
  - lia.
Qed.

Lemma begin_success_state_witness :
  fst (begin bus_good_chip) = true /\
  regs (snd (begin bus_good_chip)) AW9523_REG_CONFIG0 = 0xFF /\
  regs (snd (begin bus_good_chip)) AW9523_REG_INTENABLE1 = 0xFF /\
  Z.testbit (regs (snd (begin bus_good_chip)) AW9523_REG_GCR) 4 = true /\
  Z.testbit (regs (snd (begin bus_good_chip)) AW9523_REG_GCR) 0 = true /\
  length (trace (snd (begin bus_good_chip))) = 9%nat.
Proof.
  destruct (begin_success_state bus_good_chip)
    as [Hret [Hc0 [_ [_ [Hi1 [Hb4 [Hother [_ Hlen]]]]]]]];
    [reflexivity | reflexivity |].
  split; [exact Hret|]. split; [exact Hc0|]. split; [exact Hi1|].
  split; [exact Hb4|]. split; [|exact Hlen].
  rewrite (Hother 0) by discriminate. reflexivity.
Defined.

(** ** Reading the pins *)

Lemma inputGPIO_value (s : bus) :
  reliable s = true -> fst (inputGPIO s) = input_word s.
Proof.
  destruct s as [f lb ak tr].
  intros Hrel. unfold input_word, dev_load. cbn [loopback regs].
  destruct lb; run; drive Hrel; closed_eqb;
    apply Z.bits_inj'; intros i Hi;
    rewrite testbit_u16, !Z.lor_spec, testbit_u32, !testbit_shiftl_any,
      !join2_testbit;
    bits_rewrite; split_cmp; bool_simpl; try reflexivity;
    try (f_equal; lia);
    apply orb_diag.
Qed.

(** inputGPIO never changes a register, and on a bus that acknowledges
    it returns input0 in the low byte and input1 in the high byte: the
    extra byte each width-2 read fetches is shifted or cut away. *)
Theorem inputGPIO_reads_ports (s : bus) :
  regs (snd (inputGPIO s)) = regs s /\
  (reliable s = true -> fst (inputGPIO s) = input_word s).
Proof.
  split; [destruct s; reflexivity | apply inputGPIO_value].
Qed.

Lemma inputGPIO_reads_ports_witness :
  regs (snd (inputGPIO bus_inputs)) AW9523_REG_INPUT0 = 0xC3 /\
  fst (inputGPIO bus_inputs) = 0x81C3.
Proof.
  destruct (inputGPIO_reads_ports bus_inputs) as [Hregs Hval].
  split; [now rewrite Hregs | now rewrite Hval].
Defined.

(** When neither read is acknowledged inputGPIO reports all sixteen
    pins high. *)
Theorem inputGPIO_unacknowledged (s : bus) :
  next_ack s = false ->
  next_ack (snd (reg_read (reg2 AW9523_REG_INPUT1) s)) = false ->
  fst (inputGPIO s) = 0xFFFF.
Proof.
  destruct s as [f lb ak tr]. run. intros -> ->. reflexivity.
Qed.

Lemma inputGPIO_unacknowledged_witness : fst (inputGPIO bus_silent) = 0xFFFF.
Proof.
  apply inputGPIO_unacknowledged; reflexivity.
Defined.

(** On a bus that acknowledges, digitalRead(p) is bit p of what
    inputGPIO() returns, for every pin 0..15, and it changes no
    register. *)
Theorem digitalRead_is_inputGPIO_bit (p : Z) (s : bus) :
  0 <= p <= 15 -> reliable s = true ->
  fst (digitalRead p s) = Z.testbit (fst (inputGPIO s)) p /\
  regs (snd (digitalRead p s)) = regs s.
Proof.
  intros Hp Hrel.
  rewrite (inputGPIO_value s Hrel).
  destruct s as [f lb ak tr]. unfold input_word.
  unfold digitalRead. destruct (Z.leb_spec 8 p).
  - rewrite (u8_small (p - 8)) by lia. split; [|reflexivity].
    run. drive Hrel. change (Z.shiftl 1 1 - 1) with 1.
    rewrite land_1_nonzero, testbit_shiftr_any.
    unfold dev_load. cbn [loopback regs]. closed_eqb.
    destruct lb; rewrite join2_testbit; bits_rewrite;
      split_cmp; bool_simpl; reflexivity.
  - split; [|reflexivity].
    run. drive Hrel. change (Z.shiftl 1 1 - 1) with 1.
    rewrite land_1_nonzero, testbit_shiftr_any.
    unfold dev_load. cbn [loopback regs]. closed_eqb.
    destruct lb; rewrite join2_testbit; bits_rewrite;
      split_cmp; bool_simpl; reflexivity.
Qed.

Lemma digitalRead_is_inputGPIO_bit_witness :
  fst (digitalRead 15 bus_inputs) = true /\
  fst (digitalRead 2 bus_inputs) = false /\
  regs (snd (digitalRead 15 bus_inputs)) AW9523_REG_INPUT1 = 0x81.
Proof.
  destruct (digitalRead_is_inputGPIO_bit 15 bus_inputs) as [H15 Hregs];
    [lia | reflexivity |].
  destruct (digitalRead_is_inputGPIO_bit 2 bus_inputs) as [H2 _];
    [lia | reflexivity |].
  split; [now rewrite H15|]. split; [now rewrite H2 | now rewrite Hregs].
Defined.

(** A read that is not acknowledged makes digitalRead return true for
    every pin 0..15: the failed register read yields all ones. *)
Theorem digitalRead_unacknowledged (p : Z) (s : bus) :
  0 <= p <= 15 -> next_ack s = false ->
  fst (digitalRead p s) = true.
Proof.
  intros Hp. destruct s as [f lb ak tr]. unfold next_ack. cbn [acks].
  intros Hnack. unfold digitalRead. destruct (Z.leb_spec 8 p).
  - rewrite (u8_small (p - 8)) by lia.
    run. rewrite Hnack. change (Z.shiftl 1 1 - 1) with 1.
    rewrite land_1_nonzero, testbit_shiftr_any.
    change 4294967295 with (Z.ones 32). rewrite testbit_ones_any by lia.
    split_cmp; reflexivity.
  - run. rewrite Hnack. change (Z.shiftl 1 1 - 1) with 1.
    rewrite land_1_nonzero, testbit_shiftr_any.
    change 4294967295 with (Z.ones 32). rewrite testbit_ones_any by lia.
    split_cmp; reflexivity.
Qed.

Lemma digitalRead_unacknowledged_witness :
  fst (digitalRead 3 (mkBus (fun _ => 0) false [false] [])) = true.
Proof.
  apply digitalRead_unacknowledged; [lia | reflexivity].
Defined.

(** ** Writing single pins *)

(** The state digitalWrite leaves on a bus that acknowledges, with or
    without loopback. *)
Lemma digitalWrite_state (p : Z) (v : bool) (f : Z -> Z) (lb : bool)
      (ak : list bool) (tr : list event) :
  forallb (fun b => b) ak = true ->
  exists tr',
    digitalWrite p v (mkBus f lb ak tr)
    = (tt, mkBus (store_bytes f AW9523_REG_OUTPUT0
                    [Z.land (u32 (output_word f p v)) 0xFF;
                     Z.land (Z.shiftr (u32 (output_word f p v)) 8) 0xFF])
                 lb (tl (tl ak)) tr').
Proof.
  intros Hrel. eexists. run.
  rewrite !(acked_hd ak), !(acked_hd (tl ak)) by (repeat apply acked_tl; exact Hrel).
  closed_eqb. change (Z.shiftl 1 1 - 1) with 1.
  assert (Hload : forall a, (if lb then u8 (f a) else u8 (f a)) = u8 (f a))
    by (destruct lb; reflexivity).
  rewrite !Hload. reflexivity.
Qed.

Lemma digitalWrite_output_bit (p q : Z) (v : bool) (s : bus) :
  0 <= p <= 15 -> 0 <= q <= 15 -> reliable s = true ->
  output_bit (snd (digitalWrite p v s)) q
  = (if q =? p then v else output_bit s q) /\
  reliable (snd (digitalWrite p v s)) = true.
Proof.
  intros Hp Hq Hrel. destruct s as [f lb ak tr].
  unfold reliable in Hrel. cbn [acks] in Hrel.
  destruct (digitalWrite_state p v f lb ak tr Hrel) as [tr' ->]. cbn [snd].
  split.
  - rewrite !output_bit_split by assumption. cbn [regs].
    unfold store_bytes, dev_store. closed_eqb.
    destruct (Z.ltb_spec q 8).
    + rewrite testbit_byte_mask, testbit_u32, output_word_testbit by lia.
      split_cmp; bool_simpl; reflexivity.
    + rewrite testbit_byte_mask, testbit_shiftr_any, testbit_u32,
        output_word_testbit by lia.
      split_cmp; bool_simpl; try reflexivity.
      replace (q - 8 + 8 - 8) with (q - 8) by lia. reflexivity.
  - unfold reliable. cbn [acks]. now repeat apply acked_tl.
Qed.

(** On any bus and for any pin argument, digitalWrite changes no
    register besides output0 and output1. *)
Theorem digitalWrite_frame (p : Z) (v : bool) (s : bus) (a : Z) :
  a <> AW9523_REG_OUTPUT0 -> a <> AW9523_REG_OUTPUT1 ->
  regs (snd (digitalWrite p v s)) a = regs s a.
Proof.
  intros H0 H1. destruct s as [f lb ak tr]. run.
  destruct (hd true (tl ak)); [|reflexivity].
  unfold store_bytes, dev_store. addrs. split_cmp; reflexivity.
Qed.

Lemma digitalWrite_frame_witness :
  regs (snd (digitalWrite 5 true bus_good_chip)) AW9523_REG_CONFIG0 = 0x5A.
Proof.
  apply (digitalWrite_frame 5 true bus_good_chip AW9523_REG_CONFIG0);
    discriminate.
Defined.

(** Two digitalWrite calls on different pins both take effect, in
    either order, and leave the output bits of the other fourteen pins
    alone. *)
Theorem digitalWrite_two_pins (p q : Z) (v w : bool) (s : bus) :
  0 <= p <= 15 -> 0 <= q <= 15 -> p <> q -> reliable s = true ->
  let s2 := snd (digitalWrite q w (snd (digitalWrite p v s))) in
  output_bit s2 p = v /\
  output_bit s2 q = w /\
  (forall r, 0 <= r <= 15 -> r <> p -> r <> q -> output_bit s2 r = output_bit s r) /\
  (forall r, 0 <= r <= 15 ->
     output_bit s2 r
     = output_bit (snd (digitalWrite p v (snd (digitalWrite q w s)))) r).
Proof.
  intros Hp Hq Hne Hrel.
  destruct (digitalWrite_output_bit p p v s Hp Hp Hrel) as [_ Hrel1].
  destruct (digitalWrite_output_bit q q w s Hq Hq Hrel) as [_ Hrel2].
  assert (Hbit : forall r, 0 <= r <= 15 ->
            output_bit (snd (digitalWrite q w (snd (digitalWrite p v s)))) r
            = if r =? q then w else if r =? p then v else output_bit s r).
  { intros r Hr.
    destruct (digitalWrite_output_bit q r w _ Hq Hr Hrel1) as [-> _].
    destruct (digitalWrite_output_bit p r v s Hp Hr Hrel) as [-> _].
    reflexivity. }
  cbv zeta. repeat split.
  - rewrite Hbit by assumption. split_cmp; reflexivity.
  - rewrite Hbit by assumption. now rewrite Z.eqb_refl.
  - intros r Hr Hrp Hrq. rewrite Hbit by assumption. split_cmp; reflexivity.
  - intros r Hr. rewrite Hbit by assumption.
    destruct (digitalWrite_output_bit p r v _ Hp Hr Hrel2) as [-> _].
    destruct (digitalWrite_output_bit q r w s Hq Hr Hrel) as [-> _].
    split_cmp; reflexivity.
Qed.

Lemma digitalWrite_two_pins_witness :
  output_bit (snd (digitalWrite 12 false (snd (digitalWrite 3 true bus_good_chip)))) 3
  = true /\
  output_bit (snd (digitalWrite 12 false (snd (digitalWrite 3 true bus_good_chip)))) 12
  = false /\
  output_bit (snd (digitalWrite 12 false (snd (digitalWrite 3 true bus_good_chip)))) 9
  = output_bit bus_good_chip 9.
Proof.
  destruct (digitalWrite_two_pins 3 12 true false bus_good_chip)
    as [H3 [H12 [Hrest _]]]; [lia | lia | discriminate | reflexivity |].
  split; [exact H3|]. split; [exact H12|].
  apply Hrest; [lia | discriminate | discriminate].
Defined.

(** Writing the same pin twice leaves the value written last. *)
Theorem digitalWrite_last_wins (p : Z) (v w : bool) (s : bus) :
  0 <= p <= 15 -> reliable s = true ->
  forall r, 0 <= r <= 15 ->
    output_bit (snd (digitalWrite p w (snd (digitalWrite p v s)))) r
    = output_bit (snd (digitalWrite p w s)) r.
Proof.
  intros Hp Hrel r Hr.
  destruct (digitalWrite_output_bit p p v s Hp Hp Hrel) as [_ Hrel1].
  destruct (digitalWrite_output_bit p r w _ Hp Hr Hrel1) as [-> _].
  destruct (digitalWrite_output_bit p r v s Hp Hr Hrel) as [-> _].
  destruct (digitalWrite_output_bit p r w s Hp Hr Hrel) as [-> _].
  split_cmp; reflexivity.
Qed.

Lemma digitalWrite_last_wins_witness :
  output_bit (snd (digitalWrite 7 false (snd (digitalWrite 7 true bus_good_chip)))) 7
  = output_bit (snd (digitalWrite 7 false bus_good_chip)) 7.
Proof.
  apply (digitalWrite_last_wins 7 true false bus_good_chip); [lia | reflexivity | lia].
Defined.

(** When the read of digitalWrite's read-modify-write is not
    acknowledged but the write is, pin p gets its value and every other
    output bit is driven to 1: the failed read stands for all ones. *)
Theorem digitalWrite_after_failed_read (p : Z) (v : bool) (s : bus) :
  0 <= p <= 15 ->
  next_ack s = false ->
  next_ack (snd (reg_read (reg2 AW9523_REG_OUTPUT0) s)) = true ->
  forall q, 0 <= q <= 15 ->
    output_bit (snd (digitalWrite p v s)) q = if q =? p then v else true.
Proof.
  intros Hp. destruct s as [f lb ak tr]. run. intros Hnack Hack q Hq.
  rewrite output_bit_split by assumption. run. rewrite Hnack, Hack.
  change (Z.shiftl 1 1 - 1) with 1.
  unfold store_bytes, dev_store. closed_eqb.
  change 4294967295 with (Z.ones 32).
  destruct (Z.ltb_spec q 8).
  - rewrite testbit_byte_mask, testbit_u32, rmw_bit by lia.
    rewrite testbit_b2u, testbit_ones_any by lia.
    split_cmp; bool_simpl; reflexivity.
  - rewrite testbit_byte_mask, testbit_shiftr_any, testbit_u32, rmw_bit by lia.
    rewrite testbit_b2u, testbit_ones_any by lia.
    split_cmp; bool_simpl; reflexivity.
Qed.

Lemma digitalWrite_after_failed_read_witness :
  output_bit (snd (digitalWrite 4 false (mkBus (fun _ => 0) false [false; true] []))) 4
  = false /\
  output_bit (snd (digitalWrite 4 false (mkBus (fun _ => 0) false [false; true] []))) 11
  = true.
Proof.
  split.
  - apply (digitalWrite_after_failed_read 4 false
             (mkBus (fun _ => 0) false [false; true] []));
      [lia | reflexivity | reflexivity | lia].
  - apply (digitalWrite_after_failed_read 4 false
             (mkBus (fun _ => 0) false [false; true] []) ltac:(lia) eq_refl eq_refl 11).
    lia.
Defined.

(** ** One-bit fields over a pair of port registers *)

Lemma pin_bit_split (r0 r1 : Z) (s : bus) (q : Z) :
  0 <= q <= 15 ->
  pin_bit r0 r1 s q
  = if q <? 8 then Z.testbit (regs s r0) q else Z.testbit (regs s r1) (q - 8).
Proof.
  intros Hq. unfold pin_bit. destruct (Z.ltb_spec q 8).
  - now rewrite Z.mod_small by lia.
  - f_equal. symmetry. apply (Z.mod_unique q 8 1); lia.
Qed.

(** The way digitalRead and pinMode address a pin: the port-0 register
    with shift [p] for pins 0-7, the port-1 register with shift [p - 8]
    for pins 8-15.  Writing the field sets the bit of pin [p], keeps
    the bits of the other pins and the content of every other
    register. *)
Lemma port_field_write (r0 r1 p : Z) (d : bool) (s : bus) :
  r1 = r0 + 1 -> 2 <= r0 -> 0 <= p <= 15 -> reliable s = true ->
  let fld := mkBits (if 8 <=? p then reg2 r1 else reg2 r0) 1
                    (if 8 <=? p then u8 (p - 8) else p) in
  let s' := snd (bits_write fld (b2u d) s) in
  reliable s' = true /\
  (forall q, 0 <= q <= 15 ->
     pin_bit r0 r1 s' q = if q =? p then d else pin_bit r0 r1 s q) /\
  (forall a, a < r0 \/ r1 + 1 < a -> regs s' a = regs s a) /\
  reg s' (r1 + 1) = reg s (r1 + 1).
Proof.
  intros -> Hr0 Hp Hrel. destruct s as [f lb ak tr].
  assert (Hload : forall a, 2 <= a ->
            (if lb
             then if a =? AW9523_REG_INPUT0 then u8 (f AW9523_REG_OUTPUT0)
                  else if a =? AW9523_REG_INPUT1 then u8 (f AW9523_REG_OUTPUT1)
                       else u8 (f a)
             else u8 (f a)) = u8 (f a)).
  { intros a Ha. destruct lb; [|reflexivity].
    destruct (Z.eqb_spec a AW9523_REG_INPUT0); [addrs; lia|].
    destruct (Z.eqb_spec a AW9523_REG_INPUT1); [addrs; lia|]. reflexivity. }
  cbv zeta. destruct (Z.leb_spec 8 p) as [H8|H8].
  - rewrite (u8_small (p - 8)) by lia.
    run. drive Hrel. change (Z.shiftl 1 1 - 1) with 1.
    rewrite !Hload by lia. unfold reg. cbn [regs].
    set (w := Z.lor _ _).
    assert (Hw : forall i, 0 <= i < 16 ->
              Z.testbit w i
              = if i =? p - 8 then d
                else if i <? 8 then Z.testbit (f (r0 + 1)) i
                     else Z.testbit (f (r0 + 1 + 1)) (i - 8)).
    { intros i Hi. unfold w. rewrite rmw_bit, join2_testbit by lia.
      rewrite testbit_b2u, !testbit_u8.
      split_cmp; bool_simpl; reflexivity. }
    clearbody w. unfold store_bytes, dev_store.
    split; [unfold reliable; cbn [acks]; now repeat apply acked_tl|].
    split; [|split].
    + intros q Hq. rewrite !pin_bit_split by assumption. cbn [regs].
      destruct (Z.ltb_spec q 8).
      * split_cmp; reflexivity.
      * rewrite Z.eqb_refl.
        destruct (Z.eqb_spec (r0 + 1) (r0 + 1 + 1)); [lia|].
        rewrite testbit_byte_mask, testbit_u32, Hw by lia.
        split_cmp; bool_simpl; reflexivity.
    + intros a Ha. split_cmp; reflexivity.
    + rewrite Z.eqb_refl. apply Z.bits_inj'. intros i Hi.
      rewrite !testbit_u8, testbit_byte_mask, testbit_shiftr_any, testbit_u32.
      destruct (Z.ltb_spec i 8); [|split_cmp; bool_simpl; reflexivity].
      rewrite Hw by lia. split_cmp; bool_simpl.
      replace (i + 8 - 8) with i by lia. reflexivity.
  - run. drive Hrel. change (Z.shiftl 1 1 - 1) with 1.
    rewrite !Hload by lia. unfold reg. cbn [regs].
    set (w := Z.lor _ _).
    assert (Hw : forall i, 0 <= i < 16 ->
              Z.testbit w i
              = if i =? p then d
                else if i <? 8 then Z.testbit (f r0) i
                     else Z.testbit (f (r0 + 1)) (i - 8)).
    { intros i Hi. unfold w. rewrite rmw_bit, join2_testbit by lia.
      rewrite testbit_b2u, !testbit_u8.
      split_cmp; bool_simpl; reflexivity. }
    clearbody w. unfold store_bytes, dev_store.
    split; [unfold reliable; cbn [acks]; now repeat apply acked_tl|].
    split; [|split].
    + intros q Hq. rewrite !pin_bit_split by assumption. cbn [regs].
      destruct (Z.ltb_spec q 8).
      * destruct (Z.eqb_spec r0 (r0 + 1)); [lia|]. rewrite Z.eqb_refl.
        rewrite testbit_byte_mask, testbit_u32, Hw by lia.
        split_cmp; bool_simpl; reflexivity.
      * rewrite Z.eqb_refl.
        rewrite testbit_byte_mask, testbit_shiftr_any, testbit_u32, Hw by lia.
        split_cmp; bool_simpl; try reflexivity.
        replace (q - 8 + 8 - 8) with (q - 8) by lia. reflexivity.
    + intros a Ha. split_cmp; reflexivity.
    + destruct (Z.eqb_spec (r0 + 1 + 1) (r0 + 1)); [lia|].
      destruct (Z.eqb_spec (r0 + 1 + 1) r0); [lia|]. reflexivity.
Qed.

(** ** pinMode *)

(** For a known mode pinMode is the write of the direction bit followed
    by the write of the LED-mode bit. *)
Lemma pinMode_two_writes (p mode : Z) (cb mb : bool) (s : bus) :
  (mode = OUTPUT /\ cb = false /\ mb = true) \/
  (mode = INPUT /\ cb = true /\ mb = true) \/
  (mode = AW9523_LED_MODE /\ cb = false /\ mb = false) ->
  let confbit := mkBits (if 8 <=? p then reg2 AW9523_REG_CONFIG1
                         else reg2 AW9523_REG_CONFIG0) 1
                        (if 8 <=? p then u8 (p - 8) else p) in
  let modebit := mkBits (if 8 <=? p then reg2 AW9523_REG_LEDMODE1
                         else reg2 AW9523_REG_LEDMODE0) 1
                        (if 8 <=? p then u8 (p - 8) else p) in
  snd (pinMode p mode s)
  = snd (bits_write modebit (b2u mb) (snd (bits_write confbit (b2u cb) s))).
Proof.
  intros [[-> [-> ->]]|[[-> [-> ->]]|[-> [-> ->]]]];
    cbv zeta; unfold pinMode, when; closed_eqb; unfold bind, ret; cbn [b2u];
    repeat match goal with
      | |- context [bits_write ?f ?d ?s] =>
          destruct (bits_write f d s) as [? ?] eqn:?; cbn [snd]
      end; reflexivity.
Qed.

(** On a bus that acknowledges and for every pin 0..15, pinMode stores
    (direction bit, LED-mode bit) = (0,1) for OUTPUT, (1,1) for INPUT
    and (0,0) for AW9523_LED_MODE at the pin's position, keeps the
    direction and LED-mode bits of the other pins, and leaves every
    register outside the config and ledmode pairs with its content. *)
Theorem pinMode_sets_mode (p mode : Z) (cb mb : bool) (s : bus) :
  0 <= p <= 15 -> reliable s = true ->
  (mode = OUTPUT /\ cb = false /\ mb = true) \/
  (mode = INPUT /\ cb = true /\ mb = true) \/
  (mode = AW9523_LED_MODE /\ cb = false /\ mb = false) ->
  let s' := snd (pinMode p mode s) in
  pin_bit AW9523_REG_CONFIG0 AW9523_REG_CONFIG1 s' p = cb /\
  pin_bit AW9523_REG_LEDMODE0 AW9523_REG_LEDMODE1 s' p = mb /\
  (forall q, 0 <= q <= 15 -> q <> p ->
     pin_bit AW9523_REG_CONFIG0 AW9523_REG_CONFIG1 s' q
     = pin_bit AW9523_REG_CONFIG0 AW9523_REG_CONFIG1 s q /\
     pin_bit AW9523_REG_LEDMODE0 AW9523_REG_LEDMODE1 s' q
     = pin_bit AW9523_REG_LEDMODE0 AW9523_REG_LEDMODE1 s q) /\
  (forall a, a <> AW9523_REG_CONFIG0 -> a <> AW9523_REG_CONFIG1 ->
             a <> AW9523_REG_LEDMODE0 -> a <> AW9523_REG_LEDMODE1 ->
     reg s' a = reg s a).
Proof.
  intros Hp Hrel Hmode. cbv zeta.
  rewrite (pinMode_two_writes p mode cb mb s Hmode).
  destruct (port_field_write AW9523_REG_CONFIG0 AW9523_REG_CONFIG1 p cb s
              eq_refl ltac:(addrs; lia) Hp Hrel)
    as [Hrel1 [Hc [Hcf Hcs]]].
  set (s1 := snd (bits_write _ (b2u cb) s)) in *.
  destruct (port_field_write AW9523_REG_LEDMODE0 AW9523_REG_LEDMODE1 p mb s1
              eq_refl ltac:(addrs; lia) Hp Hrel1)
    as [Hrel2 [Hl [Hlf Hls]]].
  set (s2 := snd (bits_write _ (b2u mb) s1)) in *.
  assert (Hcfg : forall q, pin_bit AW9523_REG_CONFIG0 AW9523_REG_CONFIG1 s2 q
                           = pin_bit AW9523_REG_CONFIG0 AW9523_REG_CONFIG1 s1 q).
  { intros q. unfold pin_bit. rewrite Hlf; [reflexivity|].
    left. destruct (q <? 8); addrs; lia. }
  assert (Hled : forall q, pin_bit AW9523_REG_LEDMODE0 AW9523_REG_LEDMODE1 s1 q
                           = pin_bit AW9523_REG_LEDMODE0 AW9523_REG_LEDMODE1 s q).
  { intros q. unfold pin_bit. rewrite Hcf; [reflexivity|].
    right. destruct (q <? 8); addrs; lia. }
  split; [|split; [|split]].
  - rewrite Hcfg, Hc by assumption. now rewrite Z.eqb_refl.
  - rewrite Hl by assumption. now rewrite Z.eqb_refl.
  - intros q Hq Hne. apply Z.eqb_neq in Hne. split.
    + rewrite Hcfg, Hc by assumption. now rewrite Hne.
    + rewrite Hl, Hled by assumption. now rewrite Hne.
  - intros a Ha0 Ha1 Ha2 Ha3.
    assert (Hs1 : reg s1 a = reg s a).
    { destruct (Z.eq_dec a (AW9523_REG_CONFIG1 + 1)) as [->|Hn].
      - exact Hcs.
      - unfold reg. rewrite Hcf; [reflexivity|]. addrs. lia. }
    rewrite <- Hs1.
    destruct (Z.eq_dec a (AW9523_REG_LEDMODE1 + 1)) as [->|Hn].
    + exact Hls.
    + unfold reg. rewrite Hlf; [reflexivity|]. addrs. lia.
Qed.

Lemma pinMode_sets_mode_witness :
  pin_bit AW9523_REG_CONFIG0 AW9523_REG_CONFIG1
          (snd (pinMode 10 AW9523_LED_MODE bus_good_chip)) 10 = false /\
  pin_bit AW9523_REG_LEDMODE0 AW9523_REG_LEDMODE1
          (snd (pinMode 10 AW9523_LED_MODE bus_good_chip)) 10 = false /\
  pin_bit AW9523_REG_CONFIG0 AW9523_REG_CONFIG1
          (snd (pinMode 10 AW9523_LED_MODE bus_good_chip)) 11
  = pin_bit AW9523_REG_CONFIG0 AW9523_REG_CONFIG1 bus_good_chip 11 /\
  reg (snd (pinMode 10 AW9523_LED_MODE bus_good_chip)) AW9523_REG_INTENABLE0
  = reg bus_good_chip AW9523_REG_INTENABLE0.
Proof.
  destruct (pinMode_sets_mode 10 AW9523_LED_MODE false false bus_good_chip)
    as [Hc [Hl [Hother Hframe]]];
    [lia | reflexivity | right; right; repeat split |].
  split; [exact Hc|]. split; [exact Hl|]. split.
  - apply (Hother 11); [lia | discriminate].
  - apply Hframe; discriminate.
Defined.

(** ** enableInterrupt *)

(** For a port-0 pin on a bus that acknowledges, enableInterrupt(p, en)
    stores the complement of [en] at bit p of intenable0, keeps the
    interrupt-enable bits of the other fifteen pins and the content of
    every other register. *)
Theorem enableInterrupt_port0_inverted (p : Z) (en : bool) (s : bus) :
  0 <= p <= 7 -> reliable s = true ->
  let s' := snd (enableInterrupt p en s) in
  pin_bit AW9523_REG_INTENABLE0 AW9523_REG_INTENABLE1 s' p = negb en /\
  (forall q, 0 <= q <= 15 -> q <> p ->
     pin_bit AW9523_REG_INTENABLE0 AW9523_REG_INTENABLE1 s' q
     = pin_bit AW9523_REG_INTENABLE0 AW9523_REG_INTENABLE1 s q) /\
  (forall a, a <> AW9523_REG_INTENABLE0 -> reg s' a = reg s a).
Proof.
  intros Hp Hrel. cbv zeta.
  destruct (port_field_write AW9523_REG_INTENABLE0 AW9523_REG_INTENABLE1 p
              (negb en) s eq_refl ltac:(addrs; lia) ltac:(lia) Hrel)
    as [_ [Hbit [Hframe Hnext]]].
  assert (Hsame : snd (enableInterrupt p en s)
                  = snd (bits_write
                           (mkBits (if 8 <=? p then reg2 AW9523_REG_INTENABLE1
                                    else reg2 AW9523_REG_INTENABLE0) 1
                                   (if 8 <=? p then u8 (p - 8) else p))
                           (b2u (negb en)) s)).
  { unfold enableInterrupt. destruct (Z.leb_spec 8 p); [lia|].
    unfold bind, ret.
    destruct (bits_write _ _ s) as [r s1]. reflexivity. }
  rewrite Hsame. split; [|split].
  - rewrite Hbit by lia. now rewrite Z.eqb_refl.
  - intros q Hq Hne. rewrite Hbit by lia. apply Z.eqb_neq in Hne.
    now rewrite Hne.
  - intros a Ha.
    destruct (Z.eq_dec a AW9523_REG_INTENABLE1) as [->|Hn1].
    + apply Z.bits_inj'. intros i Hi. unfold reg. rewrite !testbit_u8.
      destruct (Z.ltb_spec i 8); [|split_cmp; bool_simpl; reflexivity].
      pose proof (Hbit (i + 8) ltac:(lia)) as Hq.
      rewrite !pin_bit_split in Hq by lia.
      destruct (Z.ltb_spec (i + 8) 8); [lia|].
      destruct (Z.eqb_spec (i + 8) p); [lia|].
      replace (i + 8 - 8) with i in Hq by lia. rewrite Hq. reflexivity.
    + destruct (Z.eq_dec a (AW9523_REG_INTENABLE1 + 1)) as [->|Hn2].
      * exact Hnext.
      * unfold reg. rewrite Hframe; [reflexivity|]. addrs. lia.
Qed.

Lemma enableInterrupt_port0_inverted_witness :
  pin_bit AW9523_REG_INTENABLE0 AW9523_REG_INTENABLE1
          (snd (enableInterrupt 6 false bus_good_chip)) 6 = true /\
  pin_bit AW9523_REG_INTENABLE0 AW9523_REG_INTENABLE1
          (snd (enableInterrupt 6 false bus_good_chip)) 13
  = pin_bit AW9523_REG_INTENABLE0 AW9523_REG_INTENABLE1 bus_good_chip 13 /\
  reg (snd (enableInterrupt 6 false bus_good_chip)) AW9523_REG_CONFIG1 = 0x5A.
Proof.
  destruct (enableInterrupt_port0_inverted 6 false bus_good_chip)
    as [Hbit [Hother Hframe]]; [lia | reflexivity |].
  split; [exact Hbit|]. split.
  - apply (Hother 13); [lia | discriminate].
  - rewrite Hframe by discriminate. reflexivity.
Defined.

(** For a port-1 pin on a bus that acknowledges, enableInterrupt(p, en)
    keeps the content of intenable0 and intenable1 and of every other
    register except the one after intenable1, where bit p - 8 takes the
    complement of [en]. *)
Theorem enableInterrupt_port1_target (p : Z) (en : bool) (s : bus) :
  8 <= p <= 15 -> reliable s = true ->
  let s' := snd (enableInterrupt p en s) in
  Z.testbit (regs s' (AW9523_REG_INTENABLE1 + 1)) (p - 8) = negb en /\
  (forall a, a <> AW9523_REG_INTENABLE1 + 1 -> reg s' a = reg s a).
Proof.
  intros Hp Hrel. destruct s as [f lb ak tr].
  unfold enableInterrupt. destruct (Z.leb_spec 8 p); [|lia].
  run. drive Hrel. closed_eqb. change (Z.shiftl 1 1 - 1) with 1.
  assert (Hload : forall a, (if lb then u8 (f a) else u8 (f a)) = u8 (f a))
    by (destruct lb; reflexivity).
  rewrite !Hload. unfold reg. cbn [regs].
  set (w := Z.lor _ _).
  assert (Hw : forall i, 0 <= i < 16 ->
            Z.testbit w i
            = if i =? p then negb en
              else if i <? 8 then Z.testbit (f AW9523_REG_INTENABLE1) i
                   else Z.testbit (f (AW9523_REG_INTENABLE1 + 1)) (i - 8)).
  { intros i Hi. unfold w. rewrite rmw_bit, join2_testbit by lia.
    rewrite testbit_b2u, !testbit_u8.
    split_cmp; bool_simpl; reflexivity. }
  clearbody w. unfold store_bytes, dev_store. split.
  - closed_eqb.
    rewrite testbit_byte_mask, testbit_shiftr_any, testbit_u32, Hw by lia.
    split_cmp; bool_simpl; reflexivity.
  - intros a Ha.
    destruct (Z.eqb_spec a (AW9523_REG_INTENABLE1 + 1)); [contradiction|].
    destruct (Z.eqb_spec a AW9523_REG_INTENABLE1) as [->|]; [|reflexivity].
    apply Z.bits_inj'. intros i Hi.
    rewrite !testbit_u8, testbit_byte_mask, testbit_u32.
    destruct (Z.ltb_spec i 8); [|split_cmp; bool_simpl; reflexivity].
    rewrite Hw by lia. split_cmp; bool_simpl; reflexivity.
Qed.

Lemma enableInterrupt_port1_target_witness :
  Z.testbit (regs (snd (enableInterrupt 9 true bus_good_chip)) 0x08) 1 = false /\
  reg (snd (enableInterrupt 9 true bus_good_chip)) AW9523_REG_INTENABLE1 = 0x5A.
Proof.
  destruct (enableInterrupt_port1_target 9 true bus_good_chip)
    as [Hbit Hframe]; [lia | reflexivity |].
  split; [exact Hbit|]. rewrite Hframe by discriminate. reflexivity.
Defined.

(** ** openDrainPort0 *)

(** On a bus that acknowledges, openDrainPort0(od) succeeds, stores the
    complement of [od] at bit 4 of the global-control register and
    keeps the other bits of that register. *)
Theorem openDrainPort0_inverted (od : bool) (s : bus) :
  reliable s = true ->
  let s' := snd (openDrainPort0 od s) in
  fst (openDrainPort0 od s) = true /\
  Z.testbit (regs s' AW9523_REG_GCR) 4 = negb od /\
  (forall i, i <> 4 ->
     Z.testbit (regs s' AW9523_REG_GCR) i = Z.testbit (reg s AW9523_REG_GCR) i).
Proof.
  intros Hrel. destruct s as [f lb ak tr]. run. drive Hrel. closed_eqb.
  unfold store_bytes. rewrite dev_store_same, join1.
  change (Z.shiftl 1 1 - 1) with 1.
  assert (Hload : (if lb then u8 (f AW9523_REG_GCR) else u8 (f AW9523_REG_GCR))
                  = u8 (f AW9523_REG_GCR)) by (destruct lb; reflexivity).
  rewrite Hload. unfold reg. cbn [regs].
  split; [reflexivity|]. split.
  - rewrite testbit_byte_mask, testbit_u32, rmw_bit, testbit_b2u by lia.
    split_cmp; bool_simpl; reflexivity.
  - intros i Hi. rewrite testbit_byte_mask, testbit_u32.
    destruct (Z.leb_spec 0 i); [destruct (Z.ltb_spec i 8)|].
    + rewrite rmw_bit by lia. apply Z.eqb_neq in Hi as ->.
      split_cmp; bool_simpl; reflexivity.
    + rewrite testbit_u8. split_cmp; bool_simpl; reflexivity.
    + rewrite !(Z.testbit_neg_r _ i) by lia. reflexivity.
Qed.

Lemma openDrainPort0_inverted_witness :
  fst (openDrainPort0 false bus_good_chip) = true /\
  regs (snd (openDrainPort0 false bus_good_chip)) AW9523_REG_GCR = 0x1F.
Proof.
  destruct (openDrainPort0_inverted false bus_good_chip) as [Hret _];
    [reflexivity|].
  split; [exact Hret | reflexivity].
Defined.

(** When only the write of openDrainPort0 is acknowledged, the call
    still returns true, and the global-control register is overwritten:
    bit 4 holds the complement of [od] and every other bit is 1. *)
Theorem openDrainPort0_after_failed_read (od : bool) (s : bus) :
  next_ack s = false ->
  next_ack (snd (reg_read (reg1 AW9523_REG_GCR) s)) = true ->
  fst (openDrainPort0 od s) = true /\
  regs (snd (openDrainPort0 od s)) AW9523_REG_GCR = if od then 0xEF else 0xFF.
Proof.
  destruct s as [f lb ak tr]. run. intros -> ->.
  split; [reflexivity|].
  unfold store_bytes. rewrite dev_store_same. destruct od; reflexivity.
Qed.

Lemma openDrainPort0_after_failed_read_witness :
  fst (openDrainPort0 true bus_nack_ack) = true /\
  regs (snd (openDrainPort0 true bus_nack_ack)) AW9523_REG_GCR = 0xEF.
Proof.
  apply (openDrainPort0_after_failed_read true bus_nack_ack); reflexivity.
Defined.

(** ** analogWrite *)

(** For an 8-bit pin argument the register of analogWrite is assigned
    exactly when the pin is in 0..15: above 15 none of the three range
    tests holds and the register stays without a value. *)
Theorem analogWrite_reg_defined_iff (pin : Z) :
  0 <= pin <= 255 ->
  (analogWrite_reg pin <> None <-> pin <= 15).
Proof.
  intros Hpin. unfold analogWrite_reg.
  split_cmp; cbn [andb]; split; intros Hdef;
    first [lia | discriminate | exfalso; apply Hdef; reflexivity].
Qed.

Lemma analogWrite_reg_defined_iff_witness :
  analogWrite_reg 15 <> None /\ ~ analogWrite_reg 16 <> None.
Proof.
  split.
  - apply (analogWrite_reg_defined_iff 15); lia.
  - intros Hdef. apply (analogWrite_reg_defined_iff 16) in Hdef; lia.
Defined.

(** The sixteen pins use sixteen different dimming registers, all
    within 0x20..0x2F. *)
Theorem analogWrite_reg_injective (p q rp rq : Z) :
  0 <= p <= 15 -> 0 <= q <= 15 ->
  analogWrite_reg p = Some rp -> analogWrite_reg q = Some rq ->
  0x20 <= rp <= 0x2F /\ (rp = rq -> p = q).
Proof.
  intros Hp Hq. rewrite !analogWrite_reg_defined by assumption.
  intros [= <-] [= <-]. unfold dimming_register. split_cmp; lia.
Qed.

Lemma analogWrite_reg_injective_witness :
  0x20 <= 0x23 <= 0x2F /\ (0x23 = 0x2C -> 11 = 12).
Proof.
  apply (analogWrite_reg_injective 11 12 0x23 0x2C); [lia | lia | reflexivity ..].
Defined.

(** Two analogWrite calls on different pins, on a bus that
    acknowledges, leave both values in place. *)
Theorem analogWrite_two_pins (p q v w : Z) (s : bus) :
  0 <= p <= 15 -> 0 <= q <= 15 -> p <> q ->
  0 <= v <= 255 -> 0 <= w <= 255 -> reliable s = true ->
  exists s1 s2,
    analogWrite p v s = Some (tt, s1) /\
    analogWrite q w s1 = Some (tt, s2) /\
    regs s2 (dimming_register p) = v /\
    regs s2 (dimming_register q) = w.
Proof.
  intros Hp Hq Hne Hv Hw Hrel. unfold analogWrite.
  rewrite !analogWrite_reg_defined by assumption.
  do 2 eexists. split; [reflexivity|]. split; [reflexivity|].
  destruct s as [f lb ak tr]. run. drive Hrel.
  rewrite !u32_small by lia.
  change (Z.land v 255) with (u8 v). change (Z.land w 255) with (u8 w).
  rewrite !u8_small by lia.
  unfold store_bytes, dev_store. rewrite Z.eqb_refl.
  assert (Hd : dimming_register p <> dimming_register q).
  { unfold dimming_register. split_cmp; lia. }
  apply Z.eqb_neq in Hd. rewrite Hd, Z.eqb_refl. split; reflexivity.
Qed.

Lemma analogWrite_two_pins_witness :
  exists s1 s2,
    analogWrite 0 10 bus_good_chip = Some (tt, s1) /\
    analogWrite 15 20 s1 = Some (tt, s2) /\
    regs s2 0x24 = 10 /\ regs s2 0x2F = 20.
Proof.
  apply (analogWrite_two_pins 0 15 10 20 bus_good_chip);
    [lia | lia | discriminate | lia | lia | reflexivity].
Defined.

(** ** Polarity of the whole-port writers, pin by pin *)

Lemma inverted_bytes_pin (m q : Z) :
  0 <= q <= 15 ->
  (if q <? 8 then Z.testbit (Z.land (Z.lnot m) 0xFF) q
   else Z.testbit (Z.land (Z.lnot (Z.shiftr m 8)) 0xFF) (q - 8))
  = negb (Z.testbit m q).
Proof.
  intros Hq. bits_rewrite. split_cmp; bool_simpl; try reflexivity.
  replace (q - 8 + 8) with q by lia. reflexivity.
Qed.

(** After a successful configureDirection(m), interruptEnableGPIO(m) or
    configureLEDMode(m) the stored bit of every pin 0..15 in the
    corresponding register pair is the complement of bit q of m. *)
Theorem inverted_writers_pin_bits (m q : Z) (s : bus) :
  0 <= m < 2 ^ 16 -> 0 <= q <= 15 ->
  (fst (configureDirection m s) = true ->
   pin_bit AW9523_REG_CONFIG0 AW9523_REG_CONFIG1
           (snd (configureDirection m s)) q = negb (Z.testbit m q)) /\
  (fst (interruptEnableGPIO m s) = true ->
   pin_bit AW9523_REG_INTENABLE0 AW9523_REG_INTENABLE1
           (snd (interruptEnableGPIO m s)) q = negb (Z.testbit m q)) /\
  (fst (configureLEDMode m s) = true ->
   pin_bit AW9523_REG_LEDMODE0 AW9523_REG_LEDMODE1
           (snd (configureLEDMode m s)) q = negb (Z.testbit m q)).
Proof.
  intros Hm Hq. destruct s as [f lb ak tr].
  rewrite !pin_bit_split by assumption.
  split; [|split]; two_writes_ok; closed_eqb;
    rewrite !inverted_low_byte;
    apply inverted_bytes_pin; assumption.
Qed.

Lemma inverted_writers_pin_bits_witness :
  pin_bit AW9523_REG_CONFIG0 AW9523_REG_CONFIG1
          (snd (configureDirection 0x0200 bus_good_chip)) 9 = false /\
  pin_bit AW9523_REG_INTENABLE0 AW9523_REG_INTENABLE1
          (snd (interruptEnableGPIO 0x0200 bus_good_chip)) 8 = true.
Proof.
  destruct (inverted_writers_pin_bits 0x0200 9 bus_good_chip) as [Hc _];
    [lia | lia |].
  destruct (inverted_writers_pin_bits 0x0200 8 bus_good_chip) as [_ [Hi _]];
    [lia | lia |].
  split; [apply Hc; reflexivity | apply Hi; reflexivity].
Defined.

(** configureDirection, on any bus and for any mask, changes no
    register outside config0, config1 and the register after config1. *)
Theorem configureDirection_frame (m : Z) (s : bus) (a : Z) :
  a < AW9523_REG_CONFIG0 \/ AW9523_REG_CONFIG1 + 1 < a ->
  regs (snd (configureDirection m s)) a = regs s a.
Proof.
  intros Ha. destruct s as [f lb ak tr]. run.
  destruct (hd true ak); cbn [negb fst snd]; [|reflexivity].
  destruct (hd true (tl ak)); cbn [negb fst snd];
    unfold store_bytes, dev_store; addrs; split_cmp; reflexivity.
Qed.

Lemma configureDirection_frame_witness :
  regs (snd (configureDirection 0xFFFF bus_good_chip)) AW9523_REG_OUTPUT1 = 0x5A /\
  regs (snd (configureDirection 0xFFFF bus_good_chip)) AW9523_REG_INTENABLE1 = 0x5A.
Proof.
  split.
  - apply (configureDirection_frame 0xFFFF bus_good_chip AW9523_REG_OUTPUT1).
    left. reflexivity.
  - apply (configureDirection_frame 0xFFFF bus_good_chip AW9523_REG_INTENABLE1).
    right. reflexivity.
Defined.

(** ** Initialization, the aborted runs *)

(** When the probe or the reset write is not acknowledged, begin
    returns false, no register has changed and at most two
    transactions were made. *)
Theorem begin_aborts_untouched (s : bus) :
  fst (i2c_begin s) = false \/ fst (reset (snd (i2c_begin s))) = false ->
  fst (begin s) = false /\
  regs (snd (begin s)) = regs s /\
  (length (trace (snd (begin s))) <= length (trace s) + 2)%nat.
Proof.
  destruct s as [f lb ak tr]. run.
  destruct (hd true ak); cbn [negb fst snd].
  - destruct (hd true (tl ak)); cbn [negb fst snd].
    + intros [H|H]; discriminate.
    + intros _. rewrite !length_app. cbn [length].
      repeat split. lia.
  - intros _. rewrite !length_app. cbn [length]. repeat split. lia.
Qed.

Lemma begin_aborts_untouched_witness :
  fst (begin bus_silent) = false /\
  regs (snd (begin bus_silent)) AW9523_REG_CONFIG0 = 0x5A /\
  fst (begin bus_ack_nack) = false /\
  regs (snd (begin bus_ack_nack)) AW9523_REG_SOFTRESET = 0x5A.
Proof.
  destruct (begin_aborts_untouched bus_silent) as [H1 [R1 _]];
    [left; reflexivity|].
  destruct (begin_aborts_untouched bus_ack_nack) as [H2 [R2 _]];
    [right; reflexivity|].
  split; [exact H1|]. split; [now rewrite R1|].
  split; [exact H2 | now rewrite R2].
Defined.
